(** * ifc-graph.py: IFC entities to a property graph, and its Neo4j emission

    A shallow embedding of [src/ifc-graph.py]:
    - [Node], [Relationship] and [Graph] with Python's hash-based set semantics;
    - [create_pure_node_from_ifc_entity] (the builder), with the [uuid4()]
      generator made explicit as a counter of draws;
    - [create_graph_from_ifc_entity_all] (the extractor) and [create_full_graph]
      (the walker) in a small state/exception monad, since the Python code
      mutates the shared [Graph] and lets exceptions escape;
    - [write_graph_to_neo4j] as the list of statements it issues.

    The ifcopenshell objects are modelled by the data the code reads from them. *)

From Stdlib Require Import String List ZArith Bool Lia QArith.
From Stdlib Require Import DecimalString DecimalZ.
Import ListNotations.

Open Scope Z_scope.
Open Scope string_scope.
#[local] Set Warnings "-register-all".

(** ** Python values and the ifcopenshell data the code reads *)

(** Values returned by [get_argument i] for a non-entity attribute. *)
Inductive value :=
| VNone
| VBool (b : bool)
| VInt (z : Z)
| VReal (q : Q)
| VStr (s : string)
| VTuple (vs : list value).

(** Python truthiness of such a value. *)
Definition truthy (v : value) : bool :=
  match v with
  | VNone => false
  | VBool b => b
  | VInt z => negb (Z.eqb z 0)
  | VReal q => negb (Qeq_bool q 0)
  | VStr s => negb (String.eqb s "")
  | VTuple vs => match vs with [] => false | _ => true end
  end.

(** An [entity_instance]: [id()], [is_a()], the tags [T] for which [is_a(T)]
    holds, its attributes ([get_argument_name i], the value [self[i]]) and its
    inverse attributes ([get_inverse_attribute_names()] with, for each name,
    the ids of the entities [get_inverse(name)] returns). *)
Inductive entity :=
| Entity (id : Z) (type : string) (is_a_tags : list string)
         (args : list (string * argval)) (inverses : list (string * list Z))
with argval :=
| AScalar (kind : string) (v : value)  (* kind as [get_argument_type] names it *)
| AEnt (e : entity)                    (* an "ENTITY INSTANCE" attribute *)
| AAgg (es : list entity)              (* an "AGGREGATE OF ENTITY INSTANCE" *)
| ADerived.                            (* a "DERIVED" attribute *)

Definition ent_id (e : entity) : Z := let '(Entity i _ _ _ _) := e in i.
Definition ent_type (e : entity) : string := let '(Entity _ t _ _ _) := e in t.
Definition ent_is_a_tags (e : entity) : list string :=
  let '(Entity _ _ ts _ _) := e in ts.
Definition ent_args (e : entity) : list (string * argval) :=
  let '(Entity _ _ _ a _) := e in a.
Definition ent_inverses (e : entity) : list (string * list Z) :=
  let '(Entity _ _ _ _ inv) := e in inv.

Definition str_in (s : string) (l : list string) : bool := existsb (String.eqb s) l.

(** [entity.is_a(T)] *)
Definition is_a (e : entity) (T : string) : bool := str_in T (ent_is_a_tags e).

(** [wrapped_data.get_argument_type(i)] *)
Definition get_argument_type (a : argval) : string :=
  match a with
  | AScalar k _ => k
  | AEnt _ => "ENTITY INSTANCE"
  | AAgg _ => "AGGREGATE OF ENTITY INSTANCE"
  | ADerived => "DERIVED"
  end.

(** Truthiness of [ifc_entity[i]]; an [entity_instance] has no [__bool__] and
    its [__len__] is its attribute count. *)
Definition truthy_arg (a : argval) : bool :=
  match a with
  | AScalar _ v => truthy v
  | AEnt e => negb (Nat.eqb (length (ent_args e)) 0)
  | AAgg es => match es with [] => false | _ => true end
  | ADerived => false  (* neither branch of the extractor handles it anyway *)
  end.

(** An [ifcopenshell.file]: [wrapped_data.types_with_super()] and its instances
    ([wrapped_data.entity_names()] lists their ids). *)
Record ifc_file := mkFile {
  types_with_super : list string;
  instances : list entity
}.

Definition entity_names (f : ifc_file) : list Z := map ent_id (instances f).

(** [ifc_file.by_id(k)]; ifcopenshell raises when no instance has id [k]. *)
Definition by_id (f : ifc_file) (k : Z) : option entity :=
  find (fun e => Z.eqb (ent_id e) k) (instances f).

(** [str(n)] for a Python int. *)
Definition py_str_Z (z : Z) : string := NilEmpty.string_of_int (Z.to_int z).

(** ** [Node] *)

(** A Python dict with string keys: insertion-ordered, [d[k] = v] replaces in
    place when [k] is present. *)
Definition dict := list (string * value).

Fixpoint dict_set (k : string) (v : value) (d : dict) : dict :=
  match d with
  | [] => [(k, v)]
  | (k', v') :: d' => if String.eqb k k' then (k, v) :: d' else (k', v') :: dict_set k v d'
  end.

Fixpoint dict_get (k : string) (d : dict) : option value :=
  match d with
  | [] => None
  | (k', v') :: d' => if String.eqb k k' then Some v' else dict_get k d'
  end.

(** [Node(dict)]: its items, [labels] (a set of strings, kept without
    duplicates), [__primarylabel__] and [__primarykey__]. *)
Record node := mkNode {
  props : dict;
  labels : list string;
  primarylabel : value;
  primarykey : value
}.

(** [labels.add(l)] *)
Definition add_label (l : string) (ls : list string) : list string :=
  if str_in l ls then ls else ls ++ [l].

(** [Node.__str__]: str() of a float and of a tuple are left abstract. *)
Definition dq : string := String (Ascii.ascii_of_nat 34) EmptyString.

Section Render.

Variable float_str : Q -> string.
Variable tuple_str : list value -> string.

(** [str(value)] *)
Definition py_str (v : value) : string :=
  match v with
  | VNone => "None"
  | VBool true => "True"
  | VBool false => "False"
  | VInt z => py_str_Z z
  | VReal q => float_str q
  | VStr s => s
  | VTuple vs => tuple_str vs
  end.

(** [isinstance(value, (int, float))]; a [bool] is an [int]. *)
Definition is_int_or_float (v : value) : bool :=
  match v with
  | VBool _ | VInt _ | VReal _ => true
  | _ => false
  end.

(** The text of one item, before the separator. *)
Definition node_str_field (key : string) (v : value) : string :=
  if is_int_or_float v then key ++ ": " ++ py_str v
  else key ++ ": " ++ dq ++ py_str v ++ dq.

(** [f"{key}: {value}, "] or [f'{key}: "{value}", '] *)
Definition node_str_item (key : string) (v : value) : string :=
  node_str_field key v ++ ", ".

Definition node_str (d : dict) : string :=
  match d with
  | [] => "{}"
  | _ =>
      let res := fold_left (fun res '(key, v) => res ++ node_str_item key v) d "{" in
      substring 0 (String.length res - 2) res ++ "}"  (* res[:-2] + "}" *)
  end.

End Render.

Definition attributes_type : list string :=
  ["ENTITY INSTANCE"; "AGGREGATE OF ENTITY INSTANCE"; "DERIVED"].

Section Builder.

(** [uuid4()]: the [k]-th call in the run returns [uuid4 k]. The builder
    threads the number of draws made so far. *)
Variable uuid4 : nat -> string.

(** [node["id"] = ...] *)
Definition node_id (e : entity) (draws : nat) : value * nat :=
  if negb (Z.eqb (ent_id e) 0) then (VStr (py_str_Z (ent_id e)), draws)
  else (VStr (uuid4 draws), S draws).

(** The hierarchy loop over [types_with_super()]. *)
Definition hierarchy_labels (e : entity) (f : ifc_file) : list string :=
  fold_left (fun ls T => if is_a e T then add_label T ls else ls)
    (types_with_super f) [].

(** The attribute loop: [node[name] = get_argument(i)] unless the type is
    in [attributes_type]. *)
Definition literal_step (d : dict) (arg : string * argval) : dict :=
  let '(name, a) := arg in
  if str_in (get_argument_type a) attributes_type then d
  else match a with
       | AScalar _ v => dict_set name v d
       | _ => d  (* unreachable: these types are in [attributes_type] *)
       end.

Definition literal_attributes (e : entity) (d : dict) : dict :=
  fold_left literal_step (ent_args e) d.

Definition getitem (k : string) (d : dict) : value :=
  match dict_get k d with Some v => v | None => VNone end.

Definition create_pure_node_from_ifc_entity (e : entity) (f : ifc_file)
    (hierarchy : bool) (draws : nat) : node * nat :=
  let '(idv, draws') := node_id e draws in
  let d0 := dict_set "name" (VStr (ent_type e)) (dict_set "id" idv []) in
  let ls := if hierarchy then hierarchy_labels e f else add_label (ent_type e) [] in
  let d := literal_attributes e d0 in
  (mkNode d ls (getitem "name" d) (getitem "id" d), draws').

End Builder.

(** ** [Relationship] and [Graph] *)

Record rel := mkRel {
  start_node : node;
  rel_type : string;
  end_node : node
}.

Record graph := mkGraph {
  nodes : list node;
  relationships : list rel
}.

(** The objects [Graph.merge] can be handed. *)
Inductive pyobj :=
| PNode (n : node)
| PRel (r : rel)
| POther (v : value).

Inductive exn := TypeError | AttributeError | RuntimeError | KeyError.

(** The extractor's state: the shared [Graph] and the [uuid4()] draws so far. *)
Record state := mkState {
  st_graph : graph;
  st_draws : nat
}.

(** State and exceptions: a raised exception keeps the mutations made before. *)
Definition M (A : Type) : Type := state -> (exn + A) * state.

Definition ret {A} (x : A) : M A := fun s => (inr x, s).
Definition raise {A} (e : exn) : M A := fun s => (inl e, s).
Definition bind {A B} (m : M A) (k : A -> M B) : M B :=
  fun s => match m s with
           | (inl e, s') => (inl e, s')
           | (inr x, s') => k x s'
           end.

Notation "x <- m ;; k" := (bind m (fun x => k))
  (at level 61, m at next level, right associativity).
Notation "m ;; k" := (bind m (fun _ => k)) (at level 61, right associativity).

(** A Python [for] loop whose body may raise. *)
Fixpoint for_each {A} (l : list A) (body : A -> M unit) : M unit :=
  match l with
  | [] => ret tt
  | x :: l' => body x ;; for_each l' body
  end.

(** A Python [set] of objects with a given [__hash__] and [__eq__]: [add]
    leaves the set alone when a stored element has the same hash and compares
    equal. The list order stands for the set's iteration order. *)
Definition py_set_mem {A} (h : A -> Z) (eq : A -> A -> bool) (x : A) (s : list A) : bool :=
  existsb (fun y => Z.eqb (h y) (h x) && eq y x) s.

Definition py_set_add {A} (h : A -> Z) (eq : A -> A -> bool) (x : A) (s : list A) : list A :=
  if py_set_mem h eq x s then s else s ++ [x].

Section Program.

(** Python's [hash] on the values a primary key or relationship type can be,
    and the hash of a tuple from the hashes of its items (both seeded per
    process, so left abstract). *)
Variable py_hash : value -> Z.
Variable tuple_hash : list Z -> Z.
Variable uuid4 : nat -> string.

(** [Node.__hash__] and [Node.__eq__] (for another [Node]). *)
Definition node_hash (n : node) : Z := py_hash (primarykey n).
Definition node_eq (n o : node) : bool := Z.eqb (node_hash n) (node_hash o).

(** [Relationship.__hash__] and [Relationship.__eq__]. *)
Definition rel_hash (r : rel) : Z :=
  tuple_hash [node_hash (start_node r); py_hash (VStr (rel_type r)); node_hash (end_node r)].
Definition rel_eq (r o : rel) : bool := Z.eqb (rel_hash r) (rel_hash o).

Definition nodes_add (n : node) (ns : list node) : list node :=
  py_set_add node_hash node_eq n ns.
Definition rels_add (r : rel) (rs : list rel) : list rel :=
  py_set_add rel_hash rel_eq r rs.

(** [Graph.merge] *)
Definition merge (o : pyobj) : M unit :=
  fun s =>
    let g := st_graph s in
    match o with
    | PNode n =>
        (inr tt, mkState (mkGraph (nodes_add n (nodes g)) (relationships g)) (st_draws s))
    | PRel r =>
        (inr tt, mkState (mkGraph (nodes g) (rels_add r (relationships g))) (st_draws s))
    | POther _ => (inl TypeError, s)
    end.

(** [create_pure_node_from_ifc_entity(e, ifc_file)] (default [hierarchy=True])
    as a step of the extractor. *)
Definition build (e : entity) (f : ifc_file) : M node :=
  fun s =>
    let '(n, k) := create_pure_node_from_ifc_entity uuid4 e f true (st_draws s) in
    (inr n, mkState (st_graph s) k).

Definition is_skipped (e r : entity) : bool :=
  str_in (ent_type r) ["IfcOwnerHistory"] && negb (String.eqb (ent_type e) "IfcProject").

(** One iteration of the attribute loop of [create_graph_from_ifc_entity_all]. *)
Definition extract_arg (e : entity) (f : ifc_file) (n : node) (arg : string * argval) : M unit :=
  let '(name, a) := arg in
  if truthy_arg a then
    if String.eqb (get_argument_type a) "ENTITY INSTANCE" then
      match a with
      | AEnt r =>
          if is_skipped e r then ret tt
          else sub <- build r f ;; merge (PRel (mkRel n name sub))
      | _ => raise AttributeError  (* a plain value has no [is_a] *)
      end
    else if String.eqb (get_argument_type a) "AGGREGATE OF ENTITY INSTANCE" then
      match a with
      | AAgg es => for_each es (fun r => sub <- build r f ;; merge (PRel (mkRel n name sub)))
      | _ => raise AttributeError  (* a plain value has no [id] *)
      end
    else ret tt
  else ret tt.

(** One iteration of the inverse-attribute loop. *)
Definition extract_inverse (e : entity) (f : ifc_file) (n : node) (inv : string * list Z) : M unit :=
  let '(rel_name, ids) := inv in
  match ids with
  | [] => ret tt
  | _ =>
      for_each ids (fun k =>
        match by_id f k with
        | None => raise RuntimeError
        | Some re => sub <- build re f ;; merge (PRel (mkRel n rel_name sub))
        end)
  end.

Definition create_graph_from_ifc_entity_all (e : entity) (f : ifc_file) : M unit :=
  n <- build e f ;;
  merge (PNode n) ;;
  for_each (ent_args e) (extract_arg e f n) ;;
  for_each (ent_inverses e) (extract_inverse e f n).

Definition create_full_graph (f : ifc_file) : M unit :=
  for_each (entity_names f) (fun k =>
    match by_id f k with
    | None => raise RuntimeError
    | Some e => create_graph_from_ifc_entity_all e f
    end).

End Program.

(** ** [write_graph_to_neo4j] *)

(** The statements sent to Neo4j:
    [CREATE (n: label {props})] and
    [MATCH (parent: la {id: "ida"}), (child: lb {id: "idb"}) CREATE (parent)-[:t]->(child)]. *)
Inductive stmt :=
| SCreate (label : value) (ps : dict)
| SMatchCreate (la : value) (ida : value) (lb : value) (idb : value) (t : string).

Definition node_query (n : node) : exn + stmt :=
  match dict_get "name" (props n) with
  | Some l => inr (SCreate l (props n))
  | None => inl KeyError
  end.

Definition rel_query (r : rel) : exn + stmt :=
  match dict_get "name" (props (start_node r)), dict_get "id" (props (start_node r)),
        dict_get "name" (props (end_node r)), dict_get "id" (props (end_node r)) with
  | Some la, Some ida, Some lb, Some idb => inr (SMatchCreate la ida lb idb (rel_type r))
  | _, _, _, _ => inl KeyError
  end.

(** [driver.execute_query] on each query in turn; a failure stops the rest. *)
Fixpoint execute (qs : list (exn + stmt)) : list stmt * option exn :=
  match qs with
  | [] => ([], None)
  | inl e :: _ => ([], Some e)
  | inr q :: qs' => let '(done, err) := execute qs' in (q :: done, err)
  end.

Definition write_graph_to_neo4j (g : graph) : list stmt * option exn :=
  execute (map node_query (nodes g) ++ map rel_query (relationships g)).

(** ** Notions used in the statements *)

(** A node returned by the builder. *)
Definition built (uuid4 : nat -> string) (n : node) : Prop :=
  exists e f hierarchy k, n = fst (create_pure_node_from_ifc_entity uuid4 e f hierarchy k).

(** An attribute the builder stores into the node's dict. *)
Definition stored_arg (a : argval) : bool :=
  negb (str_in (get_argument_type a) attributes_type).

(** The entity has no stored attribute named [key]. *)
Definition no_stored_attribute (key : string) (e : entity) : Prop :=
  forall a, In (key, a) (ent_args e) -> stored_arg a = false.

(** Two dicts with the same keys in the same order, agreeing off key [x]. *)
Definition agree_except (x : string) (d1 d2 : dict) : Prop :=
  Forall2 (fun p q => fst p = fst q /\ (fst p <> x -> snd p = snd q)) d1 d2.

(** A statement creating a node whose ["id"] property is [v]. *)
Definition carries_id (q : stmt) (v : value) : Prop :=
  match q with
  | SCreate _ ps => dict_get "id" ps = Some v
  | SMatchCreate _ _ _ _ _ => False
  end.

Definition empty_state : state := mkState (mkGraph [] []) 0.

(** Sample instances of the seeded hashes and of the [uuid4()] draws, for
    evaluating the definitions on concrete inputs. *)
Fixpoint sample_str_hash (s : string) : Z :=
  match s with
  | EmptyString => 0
  | String c s' => (Z.of_nat (Ascii.nat_of_ascii c) + 1) + 257 * sample_str_hash s'
  end.

Definition sample_hash (v : value) : Z :=
  match v with
  | VStr s => sample_str_hash s
  | VInt z => z
  | _ => 0
  end.

Fixpoint sample_tuple_hash (l : list Z) : Z :=
  match l with
  | [] => 0
  | x :: l' => x + 1000003 * sample_tuple_hash l'
  end.

Definition sample_uuid4 (k : nat) : string := "uuid-" ++ py_str_Z (Z.of_nat k).

(** Sample IFC data. *)
Definition owner_history2 : entity :=
  Entity 2 "IfcOwnerHistory" ["IfcOwnerHistory"]
    [("ChangeAction", AScalar "ENUMERATION" (VStr "ADDED"))] [].

Definition project1 : entity :=
  Entity 1 "IfcProject" ["IfcRoot"; "IfcProject"]
    [("GlobalId", AScalar "STRING" (VStr "0YvctVUKr0kugbFTf53O9L"));
     ("OwnerHistory", AEnt owner_history2)] [].

Definition placement7 : entity :=
  Entity 7 "IfcLocalPlacement" ["IfcObjectPlacement"; "IfcLocalPlacement"]
    [("PlacementRelTo", AScalar "ENTITY INSTANCE" VNone)] [].

Definition wall5 : entity :=
  Entity 5 "IfcWall" ["IfcRoot"; "IfcProduct"; "IfcWall"]
    [("GlobalId", AScalar "STRING" (VStr "3cUkl32yn9qRSPvBJVyWYp"));
     ("OwnerHistory", AEnt owner_history2);
     ("ObjectPlacement", AEnt placement7)] [].

(** An [IfcLabel] value wrapped as an entity instance: native id 0. *)
Definition label0 : entity :=
  Entity 0 "IfcLabel" ["IfcLabel"] [("wrappedValue", AScalar "STRING" (VStr "Concrete"))] [].

Definition property8 : entity :=
  Entity 8 "IfcPropertySingleValue" ["IfcProperty"; "IfcPropertySingleValue"]
    [("Name", AScalar "STRING" (VStr "Material")); ("NominalValue", AEnt label0)] [].

Definition sample_file : ifc_file :=
  mkFile ["IfcRoot"; "IfcProject"; "IfcProduct"; "IfcWall"; "IfcOwnerHistory";
          "IfcObjectPlacement"; "IfcLocalPlacement"; "IfcProperty";
          "IfcPropertySingleValue"; "IfcLabel"]
         [project1; owner_history2; wall5; placement7; property8].

Definition property_file : ifc_file :=
  mkFile ["IfcProperty"; "IfcPropertySingleValue"; "IfcLabel"] [property8].

(** A step of the extractor that leaves [graph.nodes] as it is. *)
Definition keeps_nodes {A} (m : M A) : Prop :=
  forall s, nodes (st_graph (snd (m s))) = nodes (st_graph s).

(** A graph property [P] kept by a step, whatever the step returns. *)
Definition preserves {A} (P : graph -> Prop) (m : M A) : Prop :=
  forall s, P (st_graph s) -> P (st_graph (snd (m s))).

(** A step that removes no node and no relationship. *)
Definition grows {A} (m : M A) : Prop :=
  forall N0 R0, preserves (fun g => incl N0 (nodes g) /\ incl R0 (relationships g)) m.

(** A step that raises nothing. *)
Definition never_raises {A} (m : M A) : Prop :=
  forall s, exists x s', m s = (inr x, s').

(** A node with the ["id"] and ["name"] keys the emitter reads. *)
Definition keyed (n : node) : Prop :=
  dict_get "id" (props n) <> None /\ dict_get "name" (props n) <> None.

Definition keyed_graph (g : graph) : Prop :=
  Forall keyed (nodes g) /\
  Forall (fun r => keyed (start_node r) /\ keyed (end_node r)) (relationships g).

(** The inner step of the aggregate and inverse loops. *)
Definition link (py_hash : value -> Z) (tuple_hash : list Z -> Z) (uuid4 : nat -> string)
    (f : ifc_file) (n : node) (name : string) (r : entity) : M unit :=
  sub <- build uuid4 r f ;; merge py_hash tuple_hash (PRel (mkRel n name sub)).

(** An attribute typed as ifcopenshell types it: a non-empty value of an
    entity kind is an entity (or a tuple of entities). *)
Definition arg_well_typed (a : argval) : bool :=
  match a with
  | AScalar k v =>
      negb (truthy v && (String.eqb k "ENTITY INSTANCE" ||
                         String.eqb k "AGGREGATE OF ENTITY INSTANCE"))
  | _ => true
  end.

(** Every attribute is well typed and every inverse id is an instance of [f]. *)
Definition well_formed_in (f : ifc_file) (e : entity) : Prop :=
  (forall name a, In (name, a) (ent_args e) -> arg_well_typed a = true) /\
  (forall rel_name ids k, In (rel_name, ids) (ent_inverses e) -> In k ids -> by_id f k <> None).

(** ** Lemmas on the Python containers *)

Lemma dict_get_set_eq k v d : dict_get k (dict_set k v d) = Some v.
Proof.
  induction d as [|[k' v'] d IH]; simpl.
  - now rewrite String.eqb_refl.
  - destruct (String.eqb k k') eqn:E; simpl.
    + now rewrite String.eqb_refl.
    + now rewrite E.
Qed.

Lemma dict_get_set_neq k k' v d :
  k' <> k -> dict_get k' (dict_set k v d) = dict_get k' d.
Proof.
  intros Hne. induction d as [|[k0 v0] d IH]; simpl.
  - apply String.eqb_neq in Hne. now rewrite Hne.
  - destruct (String.eqb k k0) eqn:E; simpl.
    + apply String.eqb_eq in E; subst k0.
      apply String.eqb_neq in Hne. now rewrite Hne.
    + destruct (String.eqb k' k0); [reflexivity | exact IH].
Qed.

Lemma str_in_spec s l : str_in s l = true <-> In s l.
Proof.
  unfold str_in. rewrite existsb_exists. split.
  - intros [x [Hin Heq]]. apply String.eqb_eq in Heq. now subst.
  - intros Hin. exists s. split; [exact Hin | apply String.eqb_refl].
Qed.

Lemma add_label_In x l ls : In x (add_label l ls) <-> In x ls \/ x = l.
Proof.
  unfold add_label. destruct (str_in l ls) eqn:E.
  - apply str_in_spec in E. split; [tauto|]. intros [H|H]; [exact H | now subst].
  - rewrite in_app_iff. simpl. intuition.
Qed.

(** ** The builder *)

Lemma create_pure_node_unfold uuid4 e f hierarchy k :
  create_pure_node_from_ifc_entity uuid4 e f hierarchy k =
  let d := literal_attributes e [("id", fst (node_id uuid4 e k)); ("name", VStr (ent_type e))] in
  (mkNode d (if hierarchy then hierarchy_labels e f else [ent_type e])
          (getitem "name" d) (getitem "id" d),
   snd (node_id uuid4 e k)).
Proof.
  unfold create_pure_node_from_ifc_entity. destruct (node_id uuid4 e k); reflexivity.
Qed.

Lemma literal_fold_absent key args d :
  (forall a, In (key, a) args -> stored_arg a = false) ->
  dict_get key (fold_left literal_step args d) = dict_get key d.
Proof.
  revert d; induction args as [|[name a] args IH]; intros d H; cbn [fold_left]; [reflexivity|].
  rewrite IH by (intros a' Ha'; apply H; now right).
  unfold literal_step. destruct (str_in (get_argument_type a) attributes_type) eqn:E; [reflexivity|].
  destruct a; try reflexivity.
  apply dict_get_set_neq. intros ->.
  specialize (H _ (or_introl eq_refl)). unfold stored_arg in H. rewrite E in H. discriminate.
Qed.

Lemma literal_fold_present key kind v args d :
  NoDup (map fst args) -> In (key, AScalar kind v) args -> stored_arg (AScalar kind v) = true ->
  dict_get key (fold_left literal_step args d) = Some v.
Proof.
  revert d; induction args as [|[name a] args IH]; intros d Hnd Hin Hst; [destruct Hin|].
  cbn [map fst] in Hnd. inversion Hnd as [|? ? Hnotin Hnd']; subst.
  cbn [fold_left]. destruct Hin as [Heq|Hin].
  - injection Heq as H1 H2; subst name a.
    rewrite literal_fold_absent.
    + unfold literal_step. unfold stored_arg in Hst.
      destruct (str_in (get_argument_type (AScalar kind v)) attributes_type); [discriminate|].
      apply dict_get_set_eq.
    + intros a Ha. exfalso. apply Hnotin. exact (in_map fst _ _ Ha).
  - apply IH; assumption.
Qed.

Lemma hierarchy_fold_In e T l acc :
  In T (fold_left (fun ls T' => if is_a e T' then add_label T' ls else ls) l acc) <->
  In T acc \/ (In T l /\ is_a e T = true).
Proof.
  revert acc; induction l as [|a l IH]; intros acc; cbn [fold_left].
  - simpl. tauto.
  - rewrite IH. simpl. destruct (is_a e a) eqn:E.
    + rewrite add_label_In. intuition (subst; auto).
    + intuition (subst; congruence).
Qed.

Lemma agree_except_set x k v d1 d2 :
  agree_except x d1 d2 -> agree_except x (dict_set k v d1) (dict_set k v d2).
Proof.
  unfold agree_except. induction 1 as [|[k1 v1] [k2 v2] d1 d2 [Hk Hv] Htl IH]; simpl.
  - repeat constructor.
  - simpl in Hk, Hv. subst k2. destruct (String.eqb k k1).
    + constructor; [simpl; tauto | assumption].
    + constructor; [simpl; tauto | exact IH].
Qed.

Lemma agree_except_get x key d1 d2 :
  agree_except x d1 d2 -> key <> x -> dict_get key d1 = dict_get key d2.
Proof.
  unfold agree_except. induction 1 as [|[k1 v1] [k2 v2] d1 d2 [Hk Hv] _ IH]; intros Hne; simpl.
  - reflexivity.
  - simpl in Hk, Hv. subst k2. destruct (String.eqb key k1) eqn:E.
    + apply String.eqb_eq in E. subst. now rewrite Hv.
    + now apply IH.
Qed.

Lemma literal_fold_agree x args d1 d2 :
  agree_except x d1 d2 ->
  agree_except x (fold_left literal_step args d1) (fold_left literal_step args d2).
Proof.
  revert d1 d2; induction args as [|[name a] args IH]; intros d1 d2 H; cbn [fold_left]; [exact H|].
  apply IH. unfold literal_step.
  destruct (str_in (get_argument_type a) attributes_type); [exact H|].
  destruct a; try exact H. now apply agree_except_set.
Qed.

Lemma id0_identity uuid4 e f hierarchy k :
  ent_id e = 0 -> no_stored_attribute "id" e ->
  primarykey (fst (create_pure_node_from_ifc_entity uuid4 e f hierarchy k)) = VStr (uuid4 k) /\
  snd (create_pure_node_from_ifc_entity uuid4 e f hierarchy k) = S k.
Proof.
  intros Hid Hno. rewrite create_pure_node_unfold. unfold node_id. rewrite Hid. simpl.
  split; [|reflexivity].
  unfold getitem, literal_attributes. rewrite literal_fold_absent by exact Hno. reflexivity.
Qed.

(** C8: with [hierarchy = true] the labels are exactly the tags of
    [types_with_super()] that the entity [is_a]; with [hierarchy = false] the
    label set is the singleton of the entity's type. *)
Theorem build_labels (uuid4 : nat -> string) e f k :
  (forall T, In T (labels (fst (create_pure_node_from_ifc_entity uuid4 e f true k))) <->
             In T (types_with_super f) /\ is_a e T = true) /\
  labels (fst (create_pure_node_from_ifc_entity uuid4 e f false k)) = [ent_type e].
Proof.
  rewrite !create_pure_node_unfold. simpl. split; [|reflexivity].
  intros T. unfold hierarchy_labels. rewrite hierarchy_fold_In. simpl. tauto.
Qed.

(** C10: a stored attribute literally named ["id"] (or ["name"]) overwrites
    the dict entry set from the native id (or the type) before the primary key
    (or primary label) is read, so the node's identity (or primary label) is
    that attribute's value. *)
Theorem id_name_attributes_override (uuid4 : nat -> string) e f hierarchy k name kind v :
  NoDup (map fst (ent_args e)) ->
  In (name, AScalar kind v) (ent_args e) ->
  stored_arg (AScalar kind v) = true ->
  dict_get name (props (fst (create_pure_node_from_ifc_entity uuid4 e f hierarchy k))) = Some v /\
  (name = "id" -> primarykey (fst (create_pure_node_from_ifc_entity uuid4 e f hierarchy k)) = v) /\
  (name = "name" -> primarylabel (fst (create_pure_node_from_ifc_entity uuid4 e f hierarchy k)) = v).
Proof.
  intros Hnd Hin Hst. rewrite create_pure_node_unfold. simpl.
  unfold getitem, literal_attributes.
  pose proof (literal_fold_present name kind v (ent_args e)
                [("id", fst (node_id uuid4 e k)); ("name", VStr (ent_type e))] Hnd Hin Hst) as Hg.
  split; [exact Hg|]. split; intros ->; now rewrite Hg.
Qed.

Lemma id_name_attributes_override_witness :
  let e := Entity 0 "IfcLabel" ["IfcLabel"] [("id", AScalar "STRING" (VStr "fixed"))] [] in
  NoDup (map fst (ent_args e)) /\ In ("id", AScalar "STRING" (VStr "fixed")) (ent_args e) /\
  stored_arg (AScalar "STRING" (VStr "fixed")) = true /\
  primarykey (fst (create_pure_node_from_ifc_entity sample_uuid4 e property_file true 0)) = VStr "fixed".
Proof.
  intros e.
  assert (Hnd : NoDup (map fst (ent_args e))) by (simpl; repeat constructor; simpl; tauto).
  assert (Hin : In ("id", AScalar "STRING" (VStr "fixed")) (ent_args e)) by (left; reflexivity).
  assert (Hst : stored_arg (AScalar "STRING" (VStr "fixed")) = true) by reflexivity.
  split; [exact Hnd|]. split; [exact Hin|]. split; [exact Hst|].
  exact (proj1 (proj2 (id_name_attributes_override sample_uuid4 e property_file true 0
                         "id" "STRING" (VStr "fixed") Hnd Hin Hst)) eq_refl).
Defined.

Lemma py_str_Z_inj a b : py_str_Z a = py_str_Z b -> a = b.
Proof.
  unfold py_str_Z. intros H.
  apply (f_equal NilEmpty.int_of_string) in H. rewrite !NilEmpty.isi in H.
  injection H as H. now apply DecimalZ.to_int_inj.
Qed.

Lemma sample_uuid4_inj i j : sample_uuid4 i = sample_uuid4 j -> i = j.
Proof.
  unfold sample_uuid4. simpl. intros H. injection H as H.
  apply py_str_Z_inj in H. lia.
Qed.

(** For an entity with native id 0 and no stored attribute named ["id"], the
    [uuid4()] draw is stored under ["id"] and taken as identity. *)
Lemma id0_dict_id uuid4 e f hierarchy k :
  ent_id e = 0 -> no_stored_attribute "id" e ->
  dict_get "id" (props (fst (create_pure_node_from_ifc_entity uuid4 e f hierarchy k))) =
  Some (VStr (uuid4 k)).
Proof.
  intros Hid Hno. rewrite create_pure_node_unfold. unfold node_id. rewrite Hid. simpl.
  unfold literal_attributes. rewrite literal_fold_absent by exact Hno. reflexivity.
Qed.

(** C5 (as amended): apart from the [uuid4()] draw the builder is a function of
    its inputs: labels, primary label and every dict entry other than ["id"] do
    not depend on the draws made before; for a non-zero native id the builder
    draws nothing and returns the same node; for native id 0 it draws once and,
    when the entity has no stored attribute named ["id"] (no IFC entity has
    one), stores that draw under ["id"] as the identity, so calls made at
    different draws of a generator that never repeats return different nodes. *)
Theorem build_deterministic_off_uuid (uuid4 : nat -> string) e f hierarchy k1 k2 :
  labels (fst (create_pure_node_from_ifc_entity uuid4 e f hierarchy k1)) =
    labels (fst (create_pure_node_from_ifc_entity uuid4 e f hierarchy k2)) /\
  primarylabel (fst (create_pure_node_from_ifc_entity uuid4 e f hierarchy k1)) =
    primarylabel (fst (create_pure_node_from_ifc_entity uuid4 e f hierarchy k2)) /\
  (forall key, key <> "id" ->
     dict_get key (props (fst (create_pure_node_from_ifc_entity uuid4 e f hierarchy k1))) =
     dict_get key (props (fst (create_pure_node_from_ifc_entity uuid4 e f hierarchy k2)))) /\
  (ent_id e <> 0 ->
     create_pure_node_from_ifc_entity uuid4 e f hierarchy k1 =
       (fst (create_pure_node_from_ifc_entity uuid4 e f hierarchy k2), k1) /\
     snd (create_pure_node_from_ifc_entity uuid4 e f hierarchy k2) = k2) /\
  (ent_id e = 0 ->
     snd (create_pure_node_from_ifc_entity uuid4 e f hierarchy k1) = S k1 /\
     snd (create_pure_node_from_ifc_entity uuid4 e f hierarchy k2) = S k2) /\
  (ent_id e = 0 -> no_stored_attribute "id" e ->
     dict_get "id" (props (fst (create_pure_node_from_ifc_entity uuid4 e f hierarchy k1))) =
       Some (VStr (uuid4 k1)) /\
     primarykey (fst (create_pure_node_from_ifc_entity uuid4 e f hierarchy k1)) = VStr (uuid4 k1) /\
     ((forall i j, uuid4 i = uuid4 j -> i = j) -> k1 <> k2 ->
      fst (create_pure_node_from_ifc_entity uuid4 e f hierarchy k1) <>
      fst (create_pure_node_from_ifc_entity uuid4 e f hierarchy k2))).
Proof.
  assert (Hag : agree_except "id"
     (literal_attributes e [("id", fst (node_id uuid4 e k1)); ("name", VStr (ent_type e))])
     (literal_attributes e [("id", fst (node_id uuid4 e k2)); ("name", VStr (ent_type e))])).
  { apply literal_fold_agree. unfold agree_except.
    repeat constructor; simpl; congruence. }
  split; [|split; [|split; [|split; [|split]]]].
  6:{ intros Hid Hno.
      rewrite (id0_dict_id uuid4 e f hierarchy k1 Hid Hno).
      destruct (id0_identity uuid4 e f hierarchy k1 Hid Hno) as [Hk1 _].
      destruct (id0_identity uuid4 e f hierarchy k2 Hid Hno) as [Hk2 _].
      split; [reflexivity|]. split; [exact Hk1|].
      intros Hinj Hne Heq. apply (f_equal primarykey) in Heq. rewrite Hk1, Hk2 in Heq.
      injection Heq as Heq. exact (Hne (Hinj _ _ Heq)). }
  all: rewrite !create_pure_node_unfold; simpl.
  - reflexivity.
  - unfold getitem. rewrite (agree_except_get _ _ _ _ Hag) by discriminate. reflexivity.
  - intros key Hk; exact (agree_except_get _ _ _ _ Hag Hk).
  - intros Hid. unfold node_id. apply Z.eqb_neq in Hid. rewrite Hid. simpl. split; reflexivity.
  - intros Hid. unfold node_id. rewrite Hid. simpl. split; reflexivity.
Qed.

Lemma build_deterministic_off_uuid_witness :
  create_pure_node_from_ifc_entity sample_uuid4 wall5 sample_file true 0 =
    (fst (create_pure_node_from_ifc_entity sample_uuid4 wall5 sample_file true 3), 0%nat) /\
  dict_get "id" (props (fst (create_pure_node_from_ifc_entity sample_uuid4 label0 property_file true 0))) =
    Some (VStr (sample_uuid4 0)) /\
  fst (create_pure_node_from_ifc_entity sample_uuid4 label0 property_file true 0) <>
  fst (create_pure_node_from_ifc_entity sample_uuid4 label0 property_file true 1).
Proof.
  assert (Hno : no_stored_attribute "id" label0).
  { intros a [H|[]]. discriminate. }
  split.
  - exact (proj1 (proj1 (proj2 (proj2 (proj2
             (build_deterministic_off_uuid sample_uuid4 wall5 sample_file true 0 3)))) ltac:(discriminate))).
  - destruct (proj2 (proj2 (proj2 (proj2 (proj2
             (build_deterministic_off_uuid sample_uuid4 label0 property_file true 0 1)))))
             eq_refl Hno) as [Hd [_ Hne]].
    split; [exact Hd|]. apply Hne; [exact sample_uuid4_inj | discriminate].
Defined.

(** C6: for an entity with native id 0 and no stored attribute named ["id"]
    (no IFC entity has one), every builder call takes its own [uuid4()] draw
    as identity; a call made after another (at a later draw count, as the
    counter the builder threads guarantees) therefore gets a distinct identity
    from a generator that never repeats, even on identical inputs. *)
Theorem id0_identities_distinct (uuid4 : nat -> string) e1 e2 f h1 h2 k1 k2 :
  (forall i j, uuid4 i = uuid4 j -> i = j) ->
  ent_id e1 = 0 -> ent_id e2 = 0 ->
  no_stored_attribute "id" e1 -> no_stored_attribute "id" e2 ->
  (snd (create_pure_node_from_ifc_entity uuid4 e1 f h1 k1) <= k2)%nat ->
  primarykey (fst (create_pure_node_from_ifc_entity uuid4 e1 f h1 k1)) <>
  primarykey (fst (create_pure_node_from_ifc_entity uuid4 e2 f h2 k2)).
Proof.
  intros Hinj Hid1 Hid2 Hno1 Hno2 Hle.
  destruct (id0_identity uuid4 e1 f h1 k1 Hid1 Hno1) as [Hk1 Hs1].
  destruct (id0_identity uuid4 e2 f h2 k2 Hid2 Hno2) as [Hk2 _].
  rewrite Hk1, Hk2. intros Heq. injection Heq as Heq. apply Hinj in Heq. lia.
Qed.

Lemma id0_identities_distinct_witness :
  primarykey (fst (create_pure_node_from_ifc_entity sample_uuid4 label0 property_file true 0)) <>
  primarykey (fst (create_pure_node_from_ifc_entity sample_uuid4 label0 property_file true
                     (snd (create_pure_node_from_ifc_entity sample_uuid4 label0 property_file true 0)))).
Proof.
  assert (Hno : no_stored_attribute "id" label0).
  { intros a [H|[]]. discriminate. }
  exact (id0_identities_distinct sample_uuid4 label0 label0 property_file true true 0
           (snd (create_pure_node_from_ifc_entity sample_uuid4 label0 property_file true 0))
           sample_uuid4_inj eq_refl eq_refl Hno Hno ltac:(vm_compute; lia)).
Defined.

(** C5 refuted: two successive builder calls on the same id-0 entity (the
    second made after the first's [uuid4()] draw) return different nodes. *)
Lemma build_not_pure_cex :
  fst (create_pure_node_from_ifc_entity sample_uuid4 label0 property_file true 0) <>
  fst (create_pure_node_from_ifc_entity sample_uuid4 label0 property_file true
         (snd (create_pure_node_from_ifc_entity sample_uuid4 label0 property_file true 0))).
Proof.
  intros H. apply (f_equal primarykey) in H. vm_compute in H. discriminate H.
Qed.

(** ** Node and relationship identity, [Graph.merge] *)

(** C9: [Graph.merge] raises [TypeError] on anything but a [Node] or a
    [Relationship] and leaves the graph untouched; it never raises on those. *)
Theorem merge_type_dispatch (py_hash : value -> Z) (tuple_hash : list Z -> Z) (o : pyobj) (s : state) :
  match o with
  | POther _ => merge py_hash tuple_hash o s = (inl TypeError, s)
  | _ => fst (merge py_hash tuple_hash o s) = inr tt
  end.
Proof.
  destruct o; reflexivity.
Qed.

Lemma node_hash_eq_mem py_hash n ns :
  (exists y, In y ns /\ primarykey y = primarykey n) ->
  py_set_mem (node_hash py_hash) (node_eq py_hash) n ns = true.
Proof.
  intros [y [Hin Hk]]. unfold py_set_mem. apply existsb_exists. exists y. split; [exact Hin|].
  unfold node_eq, node_hash. rewrite Hk, Z.eqb_refl. reflexivity.
Qed.

(** C7: inserting a node with the identity of an accumulated one, or a
    relationship with the (source identity, type, target identity) triple of an
    accumulated one, leaves the whole state unchanged. *)
Theorem merge_idempotent (py_hash : value -> Z) (tuple_hash : list Z -> Z) :
  (forall n s,
     (exists y, In y (nodes (st_graph s)) /\ primarykey y = primarykey n) ->
     merge py_hash tuple_hash (PNode n) s = (inr tt, s)) /\
  (forall r s,
     (exists y, In y (relationships (st_graph s)) /\
                primarykey (start_node y) = primarykey (start_node r) /\
                rel_type y = rel_type r /\
                primarykey (end_node y) = primarykey (end_node r)) ->
     merge py_hash tuple_hash (PRel r) s = (inr tt, s)).
Proof.
  split.
  - intros n [[ns rs] k] Hex. simpl in *. unfold nodes_add, py_set_add.
    rewrite node_hash_eq_mem by exact Hex. reflexivity.
  - intros r [[ns rs] k] [y [Hin [Hs [Ht He]]]]. simpl in *. unfold rels_add, py_set_add.
    replace (py_set_mem (rel_hash py_hash tuple_hash) (rel_eq py_hash tuple_hash) r rs) with true;
      [reflexivity|].
    symmetry. unfold py_set_mem. apply existsb_exists. exists y. split; [exact Hin|].
    assert (Hh : rel_hash py_hash tuple_hash y = rel_hash py_hash tuple_hash r).
    { unfold rel_hash, node_hash. rewrite Hs, Ht, He. reflexivity. }
    unfold rel_eq. rewrite Hh, Z.eqb_refl. reflexivity.
Qed.

Lemma merge_idempotent_witness :
  let n5 := fst (create_pure_node_from_ifc_entity sample_uuid4 wall5 sample_file true 0) in
  let n7 := fst (create_pure_node_from_ifc_entity sample_uuid4 placement7 sample_file true 0) in
  let s := mkState (mkGraph [n5] [mkRel n5 "ObjectPlacement" n7]) 0 in
  merge sample_hash sample_tuple_hash (PNode n5) s = (inr tt, s) /\
  merge sample_hash sample_tuple_hash (PRel (mkRel n5 "ObjectPlacement" n7)) s = (inr tt, s).
Proof.
  intros n5 n7 s. split.
  - apply (proj1 (merge_idempotent sample_hash sample_tuple_hash)).
    exists n5. split; [left; reflexivity | reflexivity].
  - apply (proj2 (merge_idempotent sample_hash sample_tuple_hash)).
    exists (mkRel n5 "ObjectPlacement" n7). split; [left; reflexivity | repeat split].
Defined.

(** C4 (as amended): [Node.__eq__] compares the hashes of the primary keys;
    equal identities give equal nodes with equal hashes, and labels and
    properties play no part. *)
Theorem node_eq_by_identity_hash (py_hash : value -> Z) (a b : node) :
  (node_eq py_hash a b = true <-> py_hash (primarykey a) = py_hash (primarykey b)) /\
  (primarykey a = primarykey b ->
   node_eq py_hash a b = true /\ node_hash py_hash a = node_hash py_hash b) /\
  (forall a', primarykey a' = primarykey a ->
   node_hash py_hash a' = node_hash py_hash a /\ node_eq py_hash a' b = node_eq py_hash a b).
Proof.
  unfold node_eq, node_hash. split; [apply Z.eqb_eq|]. split.
  - intros ->. rewrite Z.eqb_refl. split; reflexivity.
  - intros a' ->. split; reflexivity.
Qed.

Lemma node_eq_by_identity_hash_witness :
  let n5 := fst (create_pure_node_from_ifc_entity sample_uuid4 wall5 sample_file true 0) in
  let n5' := fst (create_pure_node_from_ifc_entity sample_uuid4 wall5 sample_file false 0) in
  node_eq sample_hash n5 n5' = true /\ node_hash sample_hash n5 = node_hash sample_hash n5'.
Proof.
  intros n5 n5'.
  exact (proj1 (proj2 (node_eq_by_identity_hash sample_hash n5 n5')) eq_refl).
Defined.

(** Pigeonhole: [n + 1] values in a range of [n] integers repeat. *)
Lemma pigeonhole (F : nat -> Z) (lo : Z) (n : nat) :
  (forall k, (k <= n)%nat -> lo <= F k < lo + Z.of_nat n) ->
  exists i j, (i < j <= n)%nat /\ F i = F j.
Proof.
  revert F. induction n as [|m IH]; intros F HF.
  - specialize (HF 0%nat (le_n 0)). lia.
  - assert (Hdec : forall c p, (exists i, (i <= p)%nat /\ F i = c) \/ (forall i, (i <= p)%nat -> F i <> c)).
    { intros c p. induction p as [|p IHp].
      - destruct (Z.eq_dec (F 0%nat) c) as [E|E].
        + left. exists 0%nat. split; [lia | exact E].
        + right. intros i Hi. replace i with 0%nat by lia. exact E.
      - destruct IHp as [[i [Hi E]]|Hno].
        + left. exists i. split; [lia | exact E].
        + destruct (Z.eq_dec (F (S p)) c) as [E|E].
          * left. exists (S p). split; [lia | exact E].
          * right. intros i Hi. destruct (Nat.eq_dec i (S p)) as [->|Hne]; [exact E|].
            apply Hno. lia. }
    destruct (Hdec (F (S m)) m) as [[i [Hi E]]|Hno].
    + exists i, (S m). split; [lia | exact E].
    + set (c := F (S m)).
      set (G := fun k => if Z.ltb (F k) c then F k else F k - 1).
      destruct (IH G) as [i [j [Hij E]]].
      { intros k Hk. specialize (Hno k Hk). pose proof (HF k ltac:(lia)) as Hb.
        pose proof (HF (S m) (le_n _)) as Hc. fold c in Hc, Hno.
        unfold G. destruct (Z.ltb_spec (F k) c); lia. }
      exists i, j. split; [lia|].
      pose proof (Hno i ltac:(lia)) as Hi. pose proof (Hno j ltac:(lia)) as Hj.
      unfold G in E. fold c in Hi, Hj.
      destruct (Z.ltb_spec (F i) c), (Z.ltb_spec (F j) c); lia.
Qed.

Lemma identity_of_numbered_entity (uuid4 : nat -> string) z t f hierarchy k :
  z <> 0 ->
  primarykey (fst (create_pure_node_from_ifc_entity uuid4 (Entity z t [] [] []) f hierarchy k)) =
  VStr (py_str_Z z).
Proof.
  intros Hz. rewrite create_pure_node_unfold. unfold node_id. simpl.
  apply Z.eqb_neq in Hz. rewrite Hz. reflexivity.
Qed.

(** C4 refuted: whatever the seeded 64-bit string hash is, two built nodes with
    distinct identity strings compare equal and hash alike. *)
Lemma node_eq_collision_cex :
  ~ exists py_hash : value -> Z,
      (forall v, - 2 ^ 63 <= py_hash v < 2 ^ 63) /\
      (forall (uuid4 : nat -> string) a b, built uuid4 a -> built uuid4 b ->
         (node_eq py_hash a b = true /\ node_hash py_hash a = node_hash py_hash b <->
          primarykey a = primarykey b)).
Proof.
  intros [h [Hb Hc]].
  set (F := fun j : nat => h (VStr (py_str_Z (Z.of_nat j + 1)))).
  destruct (pigeonhole F (- 2 ^ 63) (Z.to_nat (2 ^ 64))) as [i [j [Hij E]]].
  { intros k _. unfold F. rewrite Z2Nat.id by lia. specialize (Hb (VStr (py_str_Z (Z.of_nat k + 1)))). lia. }
  set (node_of := fun m : nat =>
         fst (create_pure_node_from_ifc_entity (fun _ => "") (Entity (Z.of_nat m + 1) "IfcWall" [] [] [])
                (mkFile [] []) true 0)).
  assert (Hk : forall m, primarykey (node_of m) = VStr (py_str_Z (Z.of_nat m + 1))).
  { intros m. apply identity_of_numbered_entity. lia. }
  assert (Hbuilt : forall m, built (fun _ => "") (node_of m)).
  { intros m. unfold built, node_of. do 4 eexists. reflexivity. }
  destruct (Hc (fun _ => "") (node_of i) (node_of j) (Hbuilt i) (Hbuilt j)) as [Himp _].
  assert (Hh : node_hash h (node_of i) = node_hash h (node_of j)).
  { unfold node_hash. rewrite !Hk. exact E. }
  assert (Hpk : primarykey (node_of i) = primarykey (node_of j)).
  { apply Himp. split; [unfold node_eq; rewrite Hh; apply Z.eqb_refl | exact Hh]. }
  rewrite !Hk in Hpk. injection Hpk as Hpk. apply py_str_Z_inj in Hpk. lia.
Qed.

(** ** The extractor *)

Lemma keeps_ret {A} (x : A) : keeps_nodes (ret x).
Proof. intros s; reflexivity. Qed.

Lemma keeps_raise {A} e : keeps_nodes (A := A) (raise e).
Proof. intros s; reflexivity. Qed.

Lemma keeps_bind {A B} (m : M A) (k : A -> M B) :
  keeps_nodes m -> (forall x, keeps_nodes (k x)) -> keeps_nodes (bind m k).
Proof.
  intros Hm Hk s. specialize (Hm s). unfold bind.
  destruct (m s) as [[e|x] s'] eqn:E; simpl in *; [exact Hm|]. now rewrite Hk.
Qed.

Lemma keeps_for_each {A} (l : list A) (body : A -> M unit) :
  (forall x, keeps_nodes (body x)) -> keeps_nodes (for_each l body).
Proof.
  intros Hb. induction l as [|x l IH]; simpl; [apply keeps_ret|].
  apply keeps_bind; [apply Hb | intros; exact IH].
Qed.

Lemma keeps_build uuid4 e f :
  keeps_nodes (build uuid4 e f).
Proof.
  intros s. unfold build. destruct (create_pure_node_from_ifc_entity uuid4 e f true (st_draws s)).
  reflexivity.
Qed.

Lemma keeps_merge_rel py_hash tuple_hash r : keeps_nodes (merge py_hash tuple_hash (PRel r)).
Proof. intros s; reflexivity. Qed.

Ltac keeps_tac :=
  repeat first
    [ apply keeps_ret | apply keeps_raise | apply keeps_build | apply keeps_merge_rel
    | apply keeps_bind | apply keeps_for_each | progress intros
    | match goal with
      | |- keeps_nodes (if ?b then _ else _) => destruct b
      | |- keeps_nodes (match ?x with _ => _ end) => destruct x
      end ].

Lemma keeps_extract_arg py_hash tuple_hash uuid4 e f n arg :
  keeps_nodes (extract_arg py_hash tuple_hash uuid4 e f n arg).
Proof. destruct arg as [name a]. unfold extract_arg. keeps_tac. Qed.

Lemma keeps_extract_inverse py_hash tuple_hash uuid4 e f n inv :
  keeps_nodes (extract_inverse py_hash tuple_hash uuid4 e f n inv).
Proof. destruct inv as [rel_name ids]. unfold extract_inverse. keeps_tac. Qed.

(** The only node [create_graph_from_ifc_entity_all] inserts is the entity's own. *)
Lemma extract_nodes py_hash tuple_hash uuid4 e f s :
  nodes (st_graph (snd (create_graph_from_ifc_entity_all py_hash tuple_hash uuid4 e f s))) =
  nodes_add py_hash (fst (create_pure_node_from_ifc_entity uuid4 e f true (st_draws s)))
            (nodes (st_graph s)).
Proof.
  unfold create_graph_from_ifc_entity_all. unfold bind at 1. unfold build at 1.
  destruct (create_pure_node_from_ifc_entity uuid4 e f true (st_draws s)) as [n k]. simpl.
  unfold bind at 1. simpl.
  match goal with
  | |- nodes (st_graph (snd (?m ?s'))) = _ =>
      assert (Hk : keeps_nodes m) by
        (apply keeps_bind; [apply keeps_for_each; intros; apply keeps_extract_arg
                           | intros; apply keeps_for_each; intros; apply keeps_extract_inverse]);
      rewrite (Hk s')
  end.
  reflexivity.
Qed.

(** What the attribute loop does for a processed single-entity reference. *)
Lemma extract_arg_reference py_hash tuple_hash uuid4 e f n name r s :
  truthy_arg (AEnt r) = true -> is_skipped e r = false ->
  extract_arg py_hash tuple_hash uuid4 e f n (name, AEnt r) s =
  (inr tt,
   mkState (mkGraph (nodes (st_graph s))
              (rels_add py_hash tuple_hash
                 (mkRel n name (fst (create_pure_node_from_ifc_entity uuid4 r f true (st_draws s))))
                 (relationships (st_graph s))))
           (snd (create_pure_node_from_ifc_entity uuid4 r f true (st_draws s)))).
Proof.
  intros Ht Hs. unfold extract_arg. rewrite Ht. simpl. rewrite Hs.
  unfold bind, build. destruct (create_pure_node_from_ifc_entity uuid4 r f true (st_draws s)).
  reflexivity.
Qed.

(** C1 (as amended): a processed single-entity reference inserts the
    relationship (entity node, attribute name, referenced node) and leaves
    [graph.nodes] alone; the whole extraction inserts only the entity's own node. *)
Theorem extract_reference_edge_only (py_hash : value -> Z) (tuple_hash : list Z -> Z)
    (uuid4 : nat -> string) e f n name r s :
  truthy_arg (AEnt r) = true -> is_skipped e r = false ->
  extract_arg py_hash tuple_hash uuid4 e f n (name, AEnt r) s =
  (inr tt,
   mkState (mkGraph (nodes (st_graph s))
              (rels_add py_hash tuple_hash
                 (mkRel n name (fst (create_pure_node_from_ifc_entity uuid4 r f true (st_draws s))))
                 (relationships (st_graph s))))
           (snd (create_pure_node_from_ifc_entity uuid4 r f true (st_draws s)))) /\
  nodes (st_graph (snd (create_graph_from_ifc_entity_all py_hash tuple_hash uuid4 e f s))) =
  nodes_add py_hash (fst (create_pure_node_from_ifc_entity uuid4 e f true (st_draws s)))
            (nodes (st_graph s)).
Proof.
  intros Ht Hs. split; [now apply extract_arg_reference | apply extract_nodes].
Qed.

Lemma extract_reference_edge_only_witness :
  let n5 := fst (create_pure_node_from_ifc_entity sample_uuid4 wall5 sample_file true 0) in
  fst (extract_arg sample_hash sample_tuple_hash sample_uuid4 wall5 sample_file n5
         ("ObjectPlacement", AEnt placement7) empty_state) = inr tt /\
  nodes (st_graph (snd (extract_arg sample_hash sample_tuple_hash sample_uuid4 wall5 sample_file n5
         ("ObjectPlacement", AEnt placement7) empty_state))) = [].
Proof.
  intros n5.
  destruct (extract_reference_edge_only sample_hash sample_tuple_hash sample_uuid4 wall5 sample_file n5
              "ObjectPlacement" placement7 empty_state eq_refl eq_refl) as [E _].
  rewrite E. split; reflexivity.
Defined.

(** C1 refuted: extracting the wall leaves its placement's node out of
    [graph.nodes] although a relationship ends there. *)
Lemma extract_endpoint_missing_cex :
  exists r,
    In r (relationships (st_graph (snd (create_graph_from_ifc_entity_all
            sample_hash sample_tuple_hash sample_uuid4 wall5 sample_file empty_state)))) /\
    primarykey (end_node r) = VStr "7" /\
    ~ exists n, In n (nodes (st_graph (snd (create_graph_from_ifc_entity_all
            sample_hash sample_tuple_hash sample_uuid4 wall5 sample_file empty_state)))) /\
       primarykey n = VStr "7".
Proof.
  remember (st_graph (snd (create_graph_from_ifc_entity_all
              sample_hash sample_tuple_hash sample_uuid4 wall5 sample_file empty_state))) as g eqn:Hg.
  vm_compute in Hg. subst g. simpl.
  eexists. split; [left; reflexivity|]. split; [reflexivity|].
  intros [n [[<-|[]] H]]. discriminate H.
Qed.

(** C2 (as amended): for a non-project entity a reference to an
    [IfcOwnerHistory] leaves the state as it is (no node, no relationship, no
    draw); for the project the relationship named by the attribute is inserted,
    but the [IfcOwnerHistory] node is not. *)
Theorem owner_history_rule (py_hash : value -> Z) (tuple_hash : list Z -> Z)
    (uuid4 : nat -> string) e f n name r s :
  ent_type r = "IfcOwnerHistory" ->
  (ent_type e <> "IfcProject" ->
   extract_arg py_hash tuple_hash uuid4 e f n (name, AEnt r) s = (inr tt, s)) /\
  (ent_type e = "IfcProject" -> truthy_arg (AEnt r) = true ->
   extract_arg py_hash tuple_hash uuid4 e f n (name, AEnt r) s =
   (inr tt,
    mkState (mkGraph (nodes (st_graph s))
               (rels_add py_hash tuple_hash
                  (mkRel n name (fst (create_pure_node_from_ifc_entity uuid4 r f true (st_draws s))))
                  (relationships (st_graph s))))
            (snd (create_pure_node_from_ifc_entity uuid4 r f true (st_draws s))))).
Proof.
  intros Hr. split.
  - intros He. unfold extract_arg. destruct (truthy_arg (AEnt r)); [|reflexivity].
    simpl. unfold is_skipped. rewrite Hr. simpl.
    apply String.eqb_neq in He. rewrite He. reflexivity.
  - intros He Ht. apply extract_arg_reference; [exact Ht|].
    unfold is_skipped. rewrite He. simpl. apply andb_false_r.
Qed.

Lemma owner_history_rule_witness :
  let n1 := fst (create_pure_node_from_ifc_entity sample_uuid4 project1 sample_file true 0) in
  let n5 := fst (create_pure_node_from_ifc_entity sample_uuid4 wall5 sample_file true 0) in
  extract_arg sample_hash sample_tuple_hash sample_uuid4 wall5 sample_file n5
    ("OwnerHistory", AEnt owner_history2) empty_state = (inr tt, empty_state) /\
  nodes (st_graph (snd (extract_arg sample_hash sample_tuple_hash sample_uuid4 project1 sample_file n1
    ("OwnerHistory", AEnt owner_history2) empty_state))) = [].
Proof.
  intros n1 n5.
  destruct (owner_history_rule sample_hash sample_tuple_hash sample_uuid4 wall5 sample_file n5
              "OwnerHistory" owner_history2 empty_state eq_refl) as [H1 _].
  destruct (owner_history_rule sample_hash sample_tuple_hash sample_uuid4 project1 sample_file n1
              "OwnerHistory" owner_history2 empty_state eq_refl) as [_ H2].
  split; [exact (H1 ltac:(discriminate))|].
  rewrite (H2 eq_refl eq_refl). reflexivity.
Defined.

(** C2 refuted: after extracting the project, the relationship to its
    [IfcOwnerHistory] (id 2) is there but no node with identity 2 is. *)
Lemma project_owner_history_node_missing_cex :
  exists r,
    In r (relationships (st_graph (snd (create_graph_from_ifc_entity_all
            sample_hash sample_tuple_hash sample_uuid4 project1 sample_file empty_state)))) /\
    rel_type r = "OwnerHistory" /\ primarykey (end_node r) = VStr "2" /\
    ~ exists n, In n (nodes (st_graph (snd (create_graph_from_ifc_entity_all
            sample_hash sample_tuple_hash sample_uuid4 project1 sample_file empty_state)))) /\
      primarykey n = VStr "2".
Proof.
  remember (st_graph (snd (create_graph_from_ifc_entity_all
              sample_hash sample_tuple_hash sample_uuid4 project1 sample_file empty_state))) as g eqn:Hg.
  vm_compute in Hg. subst g. simpl.
  eexists. split; [left; reflexivity|]. split; [reflexivity|]. split; [reflexivity|].
  intros [n [[<-|[]] H]]. discriminate H.
Qed.

(** ** The emitter *)

Lemma execute_ok qs out : execute qs = (out, None) -> qs = map inr out.
Proof.
  revert out; induction qs as [|[e|q] qs IH]; intros out H; simpl in H.
  - now injection H as <-.
  - discriminate H.
  - destruct (execute qs) as [done err] eqn:E. injection H as <- ->.
    simpl. f_equal. now apply IH.
Qed.

Lemma node_query_shape n q : node_query n = inr q -> exists l, q = SCreate l (props n).
Proof.
  unfold node_query. destruct (dict_get "name" (props n)); intros H; [|discriminate].
  injection H as <-. eauto.
Qed.

Lemma rel_query_shape r q :
  rel_query r = inr q -> exists la ida lb idb t, q = SMatchCreate la ida lb idb t.
Proof.
  unfold rel_query.
  destruct (dict_get "name" (props (start_node r))), (dict_get "id" (props (start_node r))),
           (dict_get "name" (props (end_node r))), (dict_get "id" (props (end_node r)));
    intros H; try discriminate.
  injection H as <-. eauto 6.
Qed.

(** C3 (as amended): when emission runs to the end, every node-creation
    statement precedes every relationship statement, and an identity has a
    node-creation statement before a relationship statement exactly when a
    node of [graph.nodes] has that ["id"]. *)
Theorem emit_order_and_matches (g : graph) (out : list stmt) :
  write_graph_to_neo4j g = (out, None) ->
  (forall i j l ps la ida lb idb t,
     nth_error out i = Some (SCreate l ps) ->
     nth_error out j = Some (SMatchCreate la ida lb idb t) -> (i < j)%nat) /\
  (forall j la ida lb idb t v,
     nth_error out j = Some (SMatchCreate la ida lb idb t) ->
     ((exists i q, (i < j)%nat /\ nth_error out i = Some q /\ carries_id q v) <->
      exists n, In n (nodes g) /\ dict_get "id" (props n) = Some v)).
Proof.
  intros H. unfold write_graph_to_neo4j in H. apply execute_ok in H. symmetry in H.
  apply map_eq_app in H. destruct H as [out1 [out2 [-> [H1 H2]]]].
  assert (Hc1 : forall q, In q out1 -> exists n, In n (nodes g) /\ exists l, q = SCreate l (props n)).
  { intros q Hq. apply (in_map (@inr exn stmt)) in Hq. rewrite H1 in Hq.
    apply in_map_iff in Hq. destruct Hq as [n [Hn Hin]].
    exists n. split; [exact Hin | exact (node_query_shape n q Hn)]. }
  assert (Hc2 : forall q, In q out2 -> exists la ida lb idb t, q = SMatchCreate la ida lb idb t).
  { intros q Hq. apply (in_map (@inr exn stmt)) in Hq. rewrite H2 in Hq.
    apply in_map_iff in Hq. destruct Hq as [r [Hr _]]. exact (rel_query_shape r q Hr). }
  assert (Hc3 : forall n, In n (nodes g) -> exists l, In (SCreate l (props n)) out1).
  { intros n Hn. apply (in_map node_query) in Hn. rewrite <- H1 in Hn.
    apply in_map_iff in Hn. destruct Hn as [q [Hq Hin]].
    destruct (node_query_shape n q (eq_sym Hq)) as [l ->]. eauto. }
  assert (Hidx_c : forall i l ps, nth_error (out1 ++ out2) i = Some (SCreate l ps) ->
                   (i < length out1)%nat /\ nth_error out1 i = Some (SCreate l ps)).
  { intros i l ps Hi. destruct (Nat.lt_ge_cases i (length out1)) as [Hlt|Hge].
    - rewrite nth_error_app1 in Hi by exact Hlt. split; assumption.
    - rewrite nth_error_app2 in Hi by exact Hge. apply nth_error_In, Hc2 in Hi.
      destruct Hi as [? [? [? [? [? Hi]]]]]. discriminate Hi. }
  assert (Hidx_m : forall j la ida lb idb t,
                   nth_error (out1 ++ out2) j = Some (SMatchCreate la ida lb idb t) ->
                   (length out1 <= j)%nat).
  { intros j la ida lb idb t Hj. destruct (Nat.lt_ge_cases j (length out1)) as [Hlt|Hge]; [|exact Hge].
    rewrite nth_error_app1 in Hj by exact Hlt. apply nth_error_In, Hc1 in Hj.
    destruct Hj as [? [_ [? Hj]]]. discriminate Hj. }
  split.
  - intros i j l ps la ida lb idb t Hi Hj.
    apply Hidx_c in Hi. apply Hidx_m in Hj. lia.
  - intros j la ida lb idb t v Hj. apply Hidx_m in Hj. split.
    + intros [i [q [Hij [Hq Hcar]]]].
      destruct q as [l ps|]; [|destruct Hcar].
      apply Hidx_c in Hq. destruct Hq as [_ Hq].
      apply nth_error_In, Hc1 in Hq. destruct Hq as [n [Hn [l' Heq]]].
      injection Heq as _ ->. exists n. split; assumption.
    + intros [n [Hn Hid]]. destruct (Hc3 n Hn) as [l Hin].
      apply In_nth_error in Hin. destruct Hin as [i Hi].
      assert (Hlt : (i < length out1)%nat) by (apply nth_error_Some; congruence).
      exists i, (SCreate l (props n)). split; [lia|]. split; [|exact Hid].
      rewrite nth_error_app1 by exact Hlt. exact Hi.
Qed.

Lemma emit_order_and_matches_witness :
  let g := st_graph (snd (create_full_graph sample_hash sample_tuple_hash sample_uuid4
                            sample_file empty_state)) in
  write_graph_to_neo4j g = (fst (write_graph_to_neo4j g), None) /\
  forall i j l ps la ida lb idb t,
    nth_error (fst (write_graph_to_neo4j g)) i = Some (SCreate l ps) ->
    nth_error (fst (write_graph_to_neo4j g)) j = Some (SMatchCreate la ida lb idb t) -> (i < j)%nat.
Proof.
  intros g.
  assert (E : write_graph_to_neo4j g = (fst (write_graph_to_neo4j g), None)) by (vm_compute; reflexivity).
  split; [exact E|].
  exact (proj1 (emit_order_and_matches g (fst (write_graph_to_neo4j g)) E)).
Defined.

(** C3 refuted: after the full walk over a file whose property value is an
    id-0 [IfcLabel], the relationship statement matches an identity (a fresh
    uuid) that no node-creation statement carries. *)
Lemma emit_unmatched_identity_cex :
  exists j la ida lb idb t,
    nth_error (fst (write_graph_to_neo4j (st_graph (snd (create_full_graph
                sample_hash sample_tuple_hash sample_uuid4 property_file empty_state))))) j =
      Some (SMatchCreate la ida lb idb t) /\
    ~ exists i q, (i < j)%nat /\
        nth_error (fst (write_graph_to_neo4j (st_graph (snd (create_full_graph
                sample_hash sample_tuple_hash sample_uuid4 property_file empty_state))))) i = Some q /\
        carries_id q idb.
Proof.
  remember (fst (write_graph_to_neo4j (st_graph (snd (create_full_graph
              sample_hash sample_tuple_hash sample_uuid4 property_file empty_state))))) as out eqn:Hout.
  vm_compute in Hout. subst out.
  exists 1%nat. do 5 eexists. split; [reflexivity|].
  intros [i [q [Hi [Hq Hc]]]]. destruct i as [|i]; [|lia].
  injection Hq as <-. vm_compute in Hc. discriminate Hc.
Qed.

(** ** [Node.__str__] *)

Lemma str_append_assoc (a b c : string) : (a ++ b) ++ c = a ++ (b ++ c).
Proof. induction a as [|x a IH]; simpl; [reflexivity | now rewrite IH]. Qed.

Lemma str_length_append (a b : string) : String.length (a ++ b) = (String.length a + String.length b)%nat.
Proof. induction a as [|x a IH]; simpl; [reflexivity | now rewrite IH]. Qed.

Lemma substring_prefix (a b : string) : substring 0 (String.length a) (a ++ b) = a.
Proof.
  induction a as [|x a IH]; simpl.
  - destruct b; reflexivity.
  - now rewrite IH.
Qed.

Lemma node_str_fold float_str tuple_str (d : dict) acc :
  d <> [] ->
  fold_left (fun res '(key, v) => res ++ node_str_item float_str tuple_str key v) d acc =
  acc ++ (String.concat ", " (map (fun '(key, v) => node_str_field float_str tuple_str key v) d)
          ++ ", ").
Proof.
  revert acc. induction d as [|[k v] d IH]; intros acc Hd; [congruence|].
  cbn [fold_left map]. destruct d as [|[k' v'] d'].
  - simpl. reflexivity.
  - rewrite IH by discriminate. unfold node_str_item.
    change (String.concat ", " (node_str_field float_str tuple_str k v ::
              map (fun '(key, v0) => node_str_field float_str tuple_str key v0) ((k', v') :: d')))
      with (node_str_field float_str tuple_str k v ++ ", " ++
            String.concat ", " (map (fun '(key, v0) => node_str_field float_str tuple_str key v0)
                                    ((k', v') :: d'))).
    rewrite !str_append_assoc. reflexivity.
Qed.

(** X1: [Node.__str__] trims the last [", "] off the loop's text: a non-empty
    dict is rendered as its items joined by [", "] between braces, each item
    [key: value] with the value quoted unless it is an int, bool or float. *)
Theorem node_str_join (float_str : Q -> string) (tuple_str : list value -> string) (d : dict) :
  d <> [] ->
  node_str float_str tuple_str d =
  "{" ++ String.concat ", " (map (fun '(key, v) => node_str_field float_str tuple_str key v) d) ++ "}".
Proof.
  intros Hd. unfold node_str. destruct d as [|p d']; [congruence|].
  rewrite (node_str_fold float_str tuple_str (p :: d') "{" Hd).
  set (C := String.concat ", " _).
  rewrite <- str_append_assoc, str_length_append.
  change (String.length ", ") with 2%nat. rewrite Nat.add_sub.
  rewrite substring_prefix, str_append_assoc. reflexivity.
Qed.

Lemma node_str_join_witness :
  [("id", VStr "5"); ("Tag", VInt 3)] <> [] /\
  node_str (fun _ => "1.5") (fun _ => "()") [("id", VStr "5"); ("Tag", VInt 3)] =
  "{id: " ++ dq ++ "5" ++ dq ++ ", Tag: 3}".
Proof.
  split; [discriminate|].
  rewrite (node_str_join (fun _ => "1.5") (fun _ => "()")) by discriminate.
  vm_compute. reflexivity.
Defined.

(** ** Keys of the builder's dict *)

Lemma dict_set_keys k v d : map fst (dict_set k v d) = add_label k (map fst d).
Proof.
  unfold add_label, str_in.
  induction d as [|[k' v'] d IH]; simpl; [reflexivity|].
  destruct (String.eqb k k') eqn:E; simpl.
  - apply String.eqb_eq in E. now subst.
  - rewrite IH. now destruct (existsb (String.eqb k) (map fst d)).
Qed.

Lemma add_label_NoDup l ls : NoDup ls -> NoDup (add_label l ls).
Proof.
  intros H. unfold add_label. destruct (str_in l ls) eqn:E; [exact H|].
  apply NoDup_app; [exact H | repeat constructor; simpl; tauto |].
  intros x Hx [Hx'|[]]. subst x. apply (proj2 (str_in_spec l ls)) in Hx. congruence.
Qed.

Lemma literal_step_keys d arg :
  map fst (literal_step d arg) =
  if stored_arg (snd arg) then add_label (fst arg) (map fst d) else map fst d.
Proof.
  destruct arg as [name a]. unfold literal_step, stored_arg. cbn [fst snd].
  destruct (str_in (get_argument_type a) attributes_type) eqn:E; cbn [negb]; [reflexivity|].
  destruct a; try (vm_compute in E; discriminate E). apply dict_set_keys.
Qed.

Lemma literal_fold_keys args d :
  (exists rest, map fst (fold_left literal_step args d) = (map fst d ++ rest)%list) /\
  (NoDup (map fst d) -> NoDup (map fst (fold_left literal_step args d))) /\
  (forall key, In key (map fst (fold_left literal_step args d)) <->
               In key (map fst d) \/ exists a, In (key, a) args /\ stored_arg a = true).
Proof.
  revert d; induction args as [|[name a] args IH]; intros d; cbn [fold_left].
  - split; [exists []; symmetry; apply app_nil_r|]. split; [tauto|]. intros key. simpl.
    split; [tauto|]. intros [H|[a [[] _]]]. exact H.
  - pose proof (literal_step_keys d (name, a)) as Hk. cbn [fst snd] in Hk.
    destruct (IH (literal_step d (name, a))) as [[rest Hr] [Hnd Hin]].
    set (d' := literal_step d (name, a)) in *. clearbody d'.
    rewrite Hk in Hr, Hnd, Hin.
    split; [|split].
    + destruct (stored_arg a); [|eauto].
      unfold add_label in Hr. destruct (str_in name (map fst d)); [eauto|].
      exists ([name] ++ rest)%list. rewrite Hr, <- app_assoc. reflexivity.
    + intros H0. apply Hnd. destruct (stored_arg a); [apply add_label_NoDup|]; exact H0.
    + intros key. rewrite Hin. destruct (stored_arg a) eqn:Es.
      * rewrite add_label_In. split.
        -- intros [[H|H]|[a' [Ha' Hs]]]; [tauto| |].
           ++ subst key. right. exists a. split; [left; reflexivity | exact Es].
           ++ right. exists a'. split; [right; exact Ha' | exact Hs].
        -- intros [H|[a' [[Heq|Ha'] Hs]]]; [tauto| |].
           ++ injection Heq as Hn Ha. subst. tauto.
           ++ right. eauto.
      * split.
        -- intros [H|[a' [Ha' Hs]]]; [tauto|]. right. exists a'. split; [right; exact Ha' | exact Hs].
        -- intros [H|[a' [[Heq|Ha'] Hs]]]; [tauto| |].
           ++ injection Heq as Hn Ha. subst. congruence.
           ++ right. eauto.
Qed.

(** X2: the builder's dict has no duplicate key, starts with ["id"] then
    ["name"], and its keys are those two and the names of the attributes it
    stores. *)
Theorem build_dict_keys (uuid4 : nat -> string) e f hierarchy k :
  let ks := map fst (props (fst (create_pure_node_from_ifc_entity uuid4 e f hierarchy k))) in
  NoDup ks /\ (exists rest, ks = "id" :: "name" :: rest) /\
  (forall key, In key ks <->
     key = "id" \/ key = "name" \/ exists a, In (key, a) (ent_args e) /\ stored_arg a = true).
Proof.
  rewrite create_pure_node_unfold. simpl. unfold literal_attributes.
  destruct (literal_fold_keys (ent_args e)
              [("id", fst (node_id uuid4 e k)); ("name", VStr (ent_type e))])
    as [[rest Hr] [Hnd Hin]].
  simpl in Hr, Hnd, Hin. split; [|split].
  - apply Hnd. repeat constructor; simpl; intuition discriminate.
  - eauto.
  - intros key. rewrite Hin. intuition.
Qed.

(** ** Sets, steps and loops *)

Lemma py_set_add_incl {A} h eq (x : A) s : incl s (py_set_add h eq x s).
Proof.
  unfold py_set_add. destruct (py_set_mem h eq x s); [apply incl_refl|].
  apply incl_appl, incl_refl.
Qed.

Lemma py_set_add_In {A} h eq (x y : A) s : In y (py_set_add h eq x s) -> In y s \/ y = x.
Proof.
  unfold py_set_add. destruct (py_set_mem h eq x s); [tauto|].
  rewrite in_app_iff. simpl. intuition.
Qed.

Lemma py_set_mem_incl {A} h eq (x : A) s1 s2 :
  incl s1 s2 -> py_set_mem h eq x s1 = true -> py_set_mem h eq x s2 = true.
Proof.
  unfold py_set_mem. rewrite !existsb_exists. intros Hi [y [Hy Hb]]. exists y. auto.
Qed.

(** After [add], the set holds an element equal to the one added. *)
Lemma py_set_add_mem {A} h eq (x : A) s :
  eq x x = true -> py_set_mem h eq x (py_set_add h eq x s) = true.
Proof.
  intros Hx. unfold py_set_add. destruct (py_set_mem h eq x s) eqn:E; [exact E|].
  unfold py_set_mem. rewrite existsb_app. simpl. rewrite Z.eqb_refl, Hx.
  now rewrite orb_true_r.
Qed.

Lemma preserves_ret {A} P (x : A) : preserves P (ret x).
Proof. intros s H; exact H. Qed.

Lemma preserves_raise {A} P e : preserves (A := A) P (raise e).
Proof. intros s H; exact H. Qed.

Lemma preserves_bind {A B} P (m : M A) (k : A -> M B) :
  preserves P m -> (forall x, preserves P (k x)) -> preserves P (bind m k).
Proof.
  intros Hm Hk s Hs. specialize (Hm s Hs). unfold bind.
  destruct (m s) as [[e|x] s'] eqn:E; simpl in *; [exact Hm|]. now apply Hk.
Qed.

Lemma preserves_for_each {A} P (l : list A) (body : A -> M unit) :
  (forall x, In x l -> preserves P (body x)) -> preserves P (for_each l body).
Proof.
  induction l as [|x l IH]; intros Hb; simpl; [apply preserves_ret|].
  apply preserves_bind; [apply Hb; now left | intros _; apply IH; intros y Hy; apply Hb; now right].
Qed.

Lemma preserves_build P uuid4 e f : preserves P (build uuid4 e f).
Proof.
  intros s Hs. unfold build. destruct (create_pure_node_from_ifc_entity uuid4 e f true (st_draws s)).
  exact Hs.
Qed.

Ltac preserves_tac leaf :=
  repeat first
    [ apply preserves_ret | apply preserves_raise | apply preserves_build | leaf
    | apply preserves_bind | apply preserves_for_each | progress intros
    | match goal with
      | |- preserves _ (if ?b then _ else _) => destruct b
      | |- preserves _ (match ?x with _ => _ end) => destruct x
      end ].

Lemma grows_merge py_hash tuple_hash o : grows (merge py_hash tuple_hash o).
Proof.
  intros N0 R0 s [HN HR]. destruct o; simpl; split; try assumption.
  - eapply incl_tran; [exact HN | apply py_set_add_incl].
  - eapply incl_tran; [exact HR | apply py_set_add_incl].
Qed.

Lemma grows_extract_arg py_hash tuple_hash uuid4 e f n arg :
  grows (extract_arg py_hash tuple_hash uuid4 e f n arg).
Proof.
  intros N0 R0. destruct arg as [name a]. unfold extract_arg.
  preserves_tac ltac:(exact (grows_merge _ _ _ N0 R0)).
Qed.

Lemma grows_extract_inverse py_hash tuple_hash uuid4 e f n inv :
  grows (extract_inverse py_hash tuple_hash uuid4 e f n inv).
Proof.
  intros N0 R0. destruct inv as [rel_name ids]. unfold extract_inverse.
  preserves_tac ltac:(exact (grows_merge _ _ _ N0 R0)).
Qed.

Lemma grows_extract py_hash tuple_hash uuid4 e f :
  grows (create_graph_from_ifc_entity_all py_hash tuple_hash uuid4 e f).
Proof.
  intros N0 R0. unfold create_graph_from_ifc_entity_all.
  preserves_tac ltac:(first [ exact (grows_merge _ _ _ N0 R0)
                             | exact (grows_extract_arg _ _ _ _ _ _ _ N0 R0)
                             | exact (grows_extract_inverse _ _ _ _ _ _ _ N0 R0) ]).
Qed.

Lemma grows_full_graph py_hash tuple_hash uuid4 f :
  grows (create_full_graph py_hash tuple_hash uuid4 f).
Proof.
  intros N0 R0. unfold create_full_graph.
  preserves_tac ltac:(exact (grows_extract _ _ _ _ _ N0 R0)).
Qed.

(** The loop [for r in ...: graph.merge(Relationship(node, name, create_pure_node(r)))]
    over items resolved to entities by [g]. *)
Lemma link_loop {A} py_hash tuple_hash uuid4 f n name (g : A -> option entity) l s :
  (forall x, In x l -> g x <> None) ->
  let res := for_each l (fun x => match g x with
                                  | None => raise RuntimeError
                                  | Some r => link py_hash tuple_hash uuid4 f n name r
                                  end) s in
  fst res = inr tt /\
  nodes (st_graph (snd res)) = nodes (st_graph s) /\
  incl (relationships (st_graph s)) (relationships (st_graph (snd res))) /\
  (forall x r, In x l -> g x = Some r -> exists k,
     py_set_mem (rel_hash py_hash tuple_hash) (rel_eq py_hash tuple_hash)
       (mkRel n name (fst (create_pure_node_from_ifc_entity uuid4 r f true k)))
       (relationships (st_graph (snd res))) = true) /\
  (forall x, In x (relationships (st_graph (snd res))) ->
     In x (relationships (st_graph s)) \/
     (start_node x = n /\ rel_type x = name /\
      exists y r k, In y l /\ g y = Some r /\
                    end_node x = fst (create_pure_node_from_ifc_entity uuid4 r f true k))).
Proof.
  revert s. induction l as [|y l IH]; intros s Hg; simpl.
  - split; [reflexivity|]. split; [reflexivity|]. split; [apply incl_refl|].
    split; [intros _ _ []|]. tauto.
  - destruct (g y) as [r|] eqn:Ey; [|exfalso; exact (Hg y (or_introl eq_refl) Ey)].
    unfold bind at 1, link, bind, build.
    destruct (create_pure_node_from_ifc_entity uuid4 r f true (st_draws s)) as [b k1] eqn:Eb.
    simpl.
    set (s1 := mkState (mkGraph (nodes (st_graph s))
                 (rels_add py_hash tuple_hash (mkRel n name b) (relationships (st_graph s)))) k1).
    destruct (IH s1 (fun x Hx => Hg x (or_intror Hx))) as [Hok [Hn [Hincl [Hmem Hnew]]]].
    fold (for_each l (fun x => match g x with
                              | None => raise RuntimeError
                              | Some r0 => link py_hash tuple_hash uuid4 f n name r0
                              end)).
    unfold link, bind, build in *.
    split; [exact Hok|]. split; [exact Hn|]. split.
    + eapply incl_tran; [apply py_set_add_incl | exact Hincl].
    + split.
      * intros x r' [<-|Hx] Hr'.
        -- rewrite Ey in Hr'. injection Hr' as <-. exists (st_draws s). rewrite Eb. simpl.
           eapply py_set_mem_incl; [exact Hincl|].
           apply py_set_add_mem. unfold rel_eq. apply Z.eqb_refl.
        -- exact (Hmem x r' Hx Hr').
      * intros x Hx. destruct (Hnew x Hx) as [Hold|[Hs [Ht [y' [r' [k' [Hy' [Hr' He]]]]]]]].
        -- destruct (py_set_add_In _ _ _ _ _ Hold) as [H|H]; [now left|].
           right. subst x. simpl. split; [reflexivity|]. split; [reflexivity|].
           exists y, r, (st_draws s). rewrite Eb. auto.
        -- right. split; [exact Hs|]. split; [exact Ht|]. exists y', r', k'. auto.
Qed.

(** ** Aggregates and inverse attributes *)

(** X4: a non-empty aggregate of entity instances never raises and leaves
    [graph.nodes] alone; for each element (an owner history included) the
    relationships hold one equal to (entity node, attribute name, element's
    node), and every relationship it adds is such a triple. *)
Theorem extract_aggregate (py_hash : value -> Z) (tuple_hash : list Z -> Z)
    (uuid4 : nat -> string) e f n name es s :
  es <> [] ->
  let res := extract_arg py_hash tuple_hash uuid4 e f n (name, AAgg es) s in
  fst res = inr tt /\
  nodes (st_graph (snd res)) = nodes (st_graph s) /\
  (forall r, In r es -> exists k,
     py_set_mem (rel_hash py_hash tuple_hash) (rel_eq py_hash tuple_hash)
       (mkRel n name (fst (create_pure_node_from_ifc_entity uuid4 r f true k)))
       (relationships (st_graph (snd res))) = true) /\
  (forall x, In x (relationships (st_graph (snd res))) ->
     In x (relationships (st_graph s)) \/
     (start_node x = n /\ rel_type x = name /\
      exists r k, In r es /\ end_node x = fst (create_pure_node_from_ifc_entity uuid4 r f true k))).
Proof.
  intros Hne. unfold extract_arg. destruct es as [|r0 es']; [congruence|]. simpl.
  destruct (link_loop py_hash tuple_hash uuid4 f n name (@Some entity) (r0 :: es') s
              (fun _ _ => ltac:(discriminate)))
    as [Hok [Hn [_ [Hmem Hnew]]]].
  split; [exact Hok|]. split; [exact Hn|]. split.
  - intros r Hr. exact (Hmem r r Hr eq_refl).
  - intros x Hx. destruct (Hnew x Hx) as [H|[Hs [Ht [y [r [k [Hy [Hr He]]]]]]]]; [now left|].
    injection Hr as <-. right. split; [exact Hs|]. split; [exact Ht|]. eauto.
Qed.

Lemma extract_aggregate_witness :
  [owner_history2] <> [] /\
  fst (extract_arg sample_hash sample_tuple_hash sample_uuid4 wall5 sample_file
         (fst (create_pure_node_from_ifc_entity sample_uuid4 wall5 sample_file true 0))
         ("HasOwners", AAgg [owner_history2]) empty_state) = inr tt.
Proof.
  split; [discriminate|].
  exact (proj1 (extract_aggregate sample_hash sample_tuple_hash sample_uuid4 wall5 sample_file
                  (fst (create_pure_node_from_ifc_entity sample_uuid4 wall5 sample_file true 0))
                  "HasOwners" [owner_history2] empty_state ltac:(discriminate))).
Defined.

(** X10: an inverse attribute whose ids all resolve never raises and leaves
    [graph.nodes] alone; for each id the relationships hold one equal to
    (entity node, inverse name, node of [by_id(id)]), and every relationship it
    adds is such a triple. *)
Theorem extract_inverse_links (py_hash : value -> Z) (tuple_hash : list Z -> Z)
    (uuid4 : nat -> string) e f n rel_name ids s :
  (forall k, In k ids -> by_id f k <> None) ->
  let res := extract_inverse py_hash tuple_hash uuid4 e f n (rel_name, ids) s in
  fst res = inr tt /\
  nodes (st_graph (snd res)) = nodes (st_graph s) /\
  (forall k re, In k ids -> by_id f k = Some re -> exists j,
     py_set_mem (rel_hash py_hash tuple_hash) (rel_eq py_hash tuple_hash)
       (mkRel n rel_name (fst (create_pure_node_from_ifc_entity uuid4 re f true j)))
       (relationships (st_graph (snd res))) = true) /\
  (forall x, In x (relationships (st_graph (snd res))) ->
     In x (relationships (st_graph s)) \/
     (start_node x = n /\ rel_type x = rel_name /\
      exists k re j, In k ids /\ by_id f k = Some re /\
                     end_node x = fst (create_pure_node_from_ifc_entity uuid4 re f true j))).
Proof.
  intros Hids. unfold extract_inverse. destruct ids as [|k0 ids'].
  - simpl. split; [reflexivity|]. split; [reflexivity|]. split; [intros _ _ []|]. tauto.
  - destruct (link_loop py_hash tuple_hash uuid4 f n rel_name (by_id f) (k0 :: ids') s Hids)
      as [Hok [Hn [_ [Hmem Hnew]]]].
    exact (conj Hok (conj Hn (conj Hmem Hnew))).
Qed.

Lemma extract_inverse_links_witness :
  (forall k, In k [2; 7] -> by_id sample_file k <> None) /\
  fst (extract_inverse sample_hash sample_tuple_hash sample_uuid4 wall5 sample_file
         (fst (create_pure_node_from_ifc_entity sample_uuid4 wall5 sample_file true 0))
         ("ReferencedBy", [2; 7]) empty_state) = inr tt.
Proof.
  assert (H : forall k, In k [2; 7] -> by_id sample_file k <> None).
  { intros k [<-|[<-|[]]]; vm_compute; discriminate. }
  split; [exact H|].
  exact (proj1 (extract_inverse_links sample_hash sample_tuple_hash sample_uuid4 wall5 sample_file
                  (fst (create_pure_node_from_ifc_entity sample_uuid4 wall5 sample_file true 0))
                  "ReferencedBy" [2; 7] empty_state H)).
Defined.

(** ** What one extraction adds *)

Lemma preserves_new_rel py_hash tuple_hash (R0 : list rel) (n : node) (names : list string) name sub :
  In name names ->
  preserves (fun g => incl R0 (relationships g) /\
                      forall r, In r (relationships g) ->
                                In r R0 \/ (start_node r = n /\ In (rel_type r) names))
            (merge py_hash tuple_hash (PRel (mkRel n name sub))).
Proof.
  intros Hname s [Hincl Hnew]. simpl. split.
  - eapply incl_tran; [exact Hincl | apply py_set_add_incl].
  - intros r Hr. destruct (py_set_add_In _ _ _ _ _ Hr) as [H|H]; [now apply Hnew|].
    subst r. right. simpl. auto.
Qed.

Lemma new_rels_extract_arg py_hash tuple_hash uuid4 R0 names e f n name a :
  In name names ->
  preserves (fun g => incl R0 (relationships g) /\
                      forall r, In r (relationships g) ->
                                In r R0 \/ (start_node r = n /\ In (rel_type r) names))
            (extract_arg py_hash tuple_hash uuid4 e f n (name, a)).
Proof.
  intros Hname. unfold extract_arg.
  preserves_tac ltac:(apply preserves_new_rel; exact Hname).
Qed.

Lemma new_rels_extract_inverse py_hash tuple_hash uuid4 R0 names e f n rel_name ids :
  In rel_name names ->
  preserves (fun g => incl R0 (relationships g) /\
                      forall r, In r (relationships g) ->
                                In r R0 \/ (start_node r = n /\ In (rel_type r) names))
            (extract_inverse py_hash tuple_hash uuid4 e f n (rel_name, ids)).
Proof.
  intros Hname. unfold extract_inverse.
  preserves_tac ltac:(apply preserves_new_rel; exact Hname).
Qed.

Lemma extract_step py_hash tuple_hash uuid4 e f s :
  create_graph_from_ifc_entity_all py_hash tuple_hash uuid4 e f s =
  (let n := fst (create_pure_node_from_ifc_entity uuid4 e f true (st_draws s)) in
   merge py_hash tuple_hash (PNode n) ;;
   for_each (ent_args e) (extract_arg py_hash tuple_hash uuid4 e f n) ;;
   for_each (ent_inverses e) (extract_inverse py_hash tuple_hash uuid4 e f n))
    (mkState (st_graph s) (snd (create_pure_node_from_ifc_entity uuid4 e f true (st_draws s)))).
Proof.
  unfold create_graph_from_ifc_entity_all. unfold bind at 1. unfold build at 1.
  destruct (create_pure_node_from_ifc_entity uuid4 e f true (st_draws s)). reflexivity.
Qed.

(** X3: [create_graph_from_ifc_entity_all] removes no node and no
    relationship, and every relationship it adds starts at the entity's own
    node and is typed by the name of one of its attributes or inverse
    attributes. *)
Theorem extract_adds_own_relationships (py_hash : value -> Z) (tuple_hash : list Z -> Z)
    (uuid4 : nat -> string) e f s :
  let s' := snd (create_graph_from_ifc_entity_all py_hash tuple_hash uuid4 e f s) in
  let n := fst (create_pure_node_from_ifc_entity uuid4 e f true (st_draws s)) in
  incl (nodes (st_graph s)) (nodes (st_graph s')) /\
  incl (relationships (st_graph s)) (relationships (st_graph s')) /\
  (forall r, In r (relationships (st_graph s')) -> ~ In r (relationships (st_graph s)) ->
     start_node r = n /\ In (rel_type r) (map fst (ent_args e) ++ map fst (ent_inverses e))%list).
Proof.
  intros s' n.
  destruct (grows_extract py_hash tuple_hash uuid4 e f (nodes (st_graph s)) []
              s (conj (incl_refl _) (incl_nil_l _))) as [HN _].
  set (names := (map fst (ent_args e) ++ map fst (ent_inverses e))%list).
  set (R0 := relationships (st_graph s)).
  pose (P := fun g => incl R0 (relationships g) /\
                      forall r, In r (relationships g) ->
                                In r R0 \/ (start_node r = n /\ In (rel_type r) names)).
  assert (H : P (st_graph s')).
  { assert (Hm : preserves P
                   (merge py_hash tuple_hash (PNode n) ;;
                    for_each (ent_args e) (extract_arg py_hash tuple_hash uuid4 e f n) ;;
                    for_each (ent_inverses e) (extract_inverse py_hash tuple_hash uuid4 e f n))).
    2:{ subst s'. rewrite extract_step. apply Hm. split; [apply incl_refl | tauto]. }
    apply preserves_bind; [|intros _].
    - intros s0 [H1 H2]. exact (conj H1 H2).
    - apply preserves_bind; [|intros _]; apply preserves_for_each.
      + intros [name a] Hin. apply new_rels_extract_arg.
        subst names. apply in_or_app. left. exact (in_map fst _ _ Hin).
      + intros [rel_name ids] Hin. apply new_rels_extract_inverse.
        subst names. apply in_or_app. right. exact (in_map fst _ _ Hin). }
  destruct H as [Hincl Hnew]. split; [exact HN|]. split; [exact Hincl|].
  intros r Hr Hnot. destruct (Hnew r Hr) as [H|H]; [contradiction | exact H].
Qed.

(** ** When the walk raises nothing *)

Lemma never_raises_ret {A} (x : A) : never_raises (ret x).
Proof. intros s. do 2 eexists. reflexivity. Qed.

Lemma never_raises_bind {A B} (m : M A) (k : A -> M B) :
  never_raises m -> (forall x, never_raises (k x)) -> never_raises (bind m k).
Proof.
  intros Hm Hk s. destruct (Hm s) as [x [s' E]]. unfold bind. rewrite E. apply Hk.
Qed.

Lemma never_raises_for_each {A} (l : list A) (body : A -> M unit) :
  (forall x, In x l -> never_raises (body x)) -> never_raises (for_each l body).
Proof.
  induction l as [|x l IH]; intros Hb; simpl; [apply never_raises_ret|].
  apply never_raises_bind; [apply Hb; now left | intros _; apply IH; intros y Hy; apply Hb; now right].
Qed.

Lemma never_raises_build uuid4 e f : never_raises (build uuid4 e f).
Proof.
  intros s. unfold build. destruct (create_pure_node_from_ifc_entity uuid4 e f true (st_draws s)).
  do 2 eexists. reflexivity.
Qed.

Lemma never_raises_merge_node py_hash tuple_hash n : never_raises (merge py_hash tuple_hash (PNode n)).
Proof. intros s. do 2 eexists. reflexivity. Qed.

Lemma never_raises_merge_rel py_hash tuple_hash r : never_raises (merge py_hash tuple_hash (PRel r)).
Proof. intros s. do 2 eexists. reflexivity. Qed.

Lemma never_raises_link py_hash tuple_hash uuid4 f n name r :
  never_raises (link py_hash tuple_hash uuid4 f n name r).
Proof.
  apply never_raises_bind; [apply never_raises_build | intros; apply never_raises_merge_rel].
Qed.

Lemma never_raises_extract_arg py_hash tuple_hash uuid4 e f n name a :
  arg_well_typed a = true ->
  never_raises (extract_arg py_hash tuple_hash uuid4 e f n (name, a)).
Proof.
  intros Hw. unfold extract_arg.
  destruct (truthy_arg a) eqn:Ht; [|apply never_raises_ret].
  destruct a as [k v|r|es|]; simpl in Ht |- *.
  - unfold arg_well_typed in Hw. rewrite Ht in Hw. simpl in Hw.
    destruct (String.eqb k "ENTITY INSTANCE"); [discriminate|].
    destruct (String.eqb k "AGGREGATE OF ENTITY INSTANCE"); [discriminate|].
    apply never_raises_ret.
  - destruct (is_skipped e r); [apply never_raises_ret|]. apply never_raises_link.
  - apply never_raises_for_each. intros; apply never_raises_link.
  - discriminate.
Qed.

Lemma never_raises_extract_inverse py_hash tuple_hash uuid4 e f n rel_name ids :
  (forall k, In k ids -> by_id f k <> None) ->
  never_raises (extract_inverse py_hash tuple_hash uuid4 e f n (rel_name, ids)).
Proof.
  intros Hids. unfold extract_inverse. destruct ids as [|k0 ids']; [apply never_raises_ret|].
  apply never_raises_for_each. intros k Hk.
  destruct (by_id f k) as [re|] eqn:E; [apply never_raises_link|].
  exfalso. exact (Hids k Hk E).
Qed.

Lemma never_raises_extract py_hash tuple_hash uuid4 e f :
  well_formed_in f e -> never_raises (create_graph_from_ifc_entity_all py_hash tuple_hash uuid4 e f).
Proof.
  intros [Hargs Hinv]. unfold create_graph_from_ifc_entity_all.
  apply never_raises_bind; [apply never_raises_build | intros n].
  apply never_raises_bind; [apply never_raises_merge_node | intros _].
  apply never_raises_bind; [|intros _]; apply never_raises_for_each.
  - intros [name a] Hin. apply never_raises_extract_arg. exact (Hargs name a Hin).
  - intros [rel_name ids] Hin. apply never_raises_extract_inverse.
    intros k Hk. exact (Hinv rel_name ids k Hin Hk).
Qed.

Lemma by_id_In f k e : by_id f k = Some e -> In e (instances f) /\ ent_id e = k.
Proof.
  unfold by_id. intros H. destruct (find_some _ _ H) as [Hin Heq].
  split; [exact Hin | now apply Z.eqb_eq].
Qed.

Lemma by_id_entity_names f k : In k (entity_names f) -> by_id f k <> None.
Proof.
  unfold entity_names, by_id. intros Hk E. apply in_map_iff in Hk as [e [<- He]].
  pose proof (find_none _ _ E e He) as H. simpl in H. now rewrite Z.eqb_refl in H.
Qed.

(** X5: on an entity whose attributes are typed as ifcopenshell types them and
    whose inverse ids all resolve, [create_graph_from_ifc_entity_all] raises
    nothing. *)
Theorem extract_no_exception (py_hash : value -> Z) (tuple_hash : list Z -> Z)
    (uuid4 : nat -> string) e f s :
  well_formed_in f e ->
  exists s', create_graph_from_ifc_entity_all py_hash tuple_hash uuid4 e f s = (inr tt, s').
Proof.
  intros Hwf. destruct (never_raises_extract py_hash tuple_hash uuid4 e f Hwf s) as [[] [s' E]].
  eauto.
Qed.

(** X6: when every instance of the file is such an entity, [create_full_graph]
    raises nothing: each id of [entity_names()] resolves through [by_id]. *)
Theorem full_graph_no_exception (py_hash : value -> Z) (tuple_hash : list Z -> Z)
    (uuid4 : nat -> string) f s :
  (forall e, In e (instances f) -> well_formed_in f e) ->
  exists s', create_full_graph py_hash tuple_hash uuid4 f s = (inr tt, s').
Proof.
  intros Hwf.
  assert (H : never_raises (create_full_graph py_hash tuple_hash uuid4 f)).
  { unfold create_full_graph. apply never_raises_for_each. intros k Hk.
    destruct (by_id f k) as [e|] eqn:E.
    - apply never_raises_extract. apply Hwf. exact (proj1 (by_id_In f k e E)).
    - exfalso. exact (by_id_entity_names f k Hk E). }
  destruct (H s) as [[] [s' E]]. eauto.
Qed.

Lemma well_formed_check f e :
  forallb (fun p => arg_well_typed (snd p)) (ent_args e) = true ->
  forallb (fun p => forallb (fun k => match by_id f k with Some _ => true | None => false end)
                            (snd p)) (ent_inverses e) = true ->
  well_formed_in f e.
Proof.
  intros Ha Hi. split.
  - intros name a Hin. rewrite forallb_forall in Ha. exact (Ha _ Hin).
  - intros rel_name ids k Hin Hk E. rewrite forallb_forall in Hi.
    specialize (Hi _ Hin). simpl in Hi. rewrite forallb_forall in Hi.
    specialize (Hi k Hk). now rewrite E in Hi.
Qed.

Lemma sample_file_well_formed :
  forall e, In e (instances sample_file) -> well_formed_in sample_file e.
Proof.
  intros e He. simpl in He.
  repeat destruct He as [He|He]; subst; try contradiction;
    apply well_formed_check; reflexivity.
Qed.

Lemma extract_no_exception_witness :
  well_formed_in sample_file wall5 /\
  exists s', create_graph_from_ifc_entity_all sample_hash sample_tuple_hash sample_uuid4
               wall5 sample_file empty_state = (inr tt, s').
Proof.
  assert (H : well_formed_in sample_file wall5)
    by (apply sample_file_well_formed; simpl; tauto).
  split; [exact H|].
  exact (extract_no_exception sample_hash sample_tuple_hash sample_uuid4 wall5 sample_file
           empty_state H).
Defined.

Lemma full_graph_no_exception_witness :
  (forall e, In e (instances sample_file) -> well_formed_in sample_file e) /\
  exists s', create_full_graph sample_hash sample_tuple_hash sample_uuid4 sample_file empty_state
             = (inr tt, s').
Proof.
  split; [exact sample_file_well_formed|].
  exact (full_graph_no_exception sample_hash sample_tuple_hash sample_uuid4 sample_file
           empty_state sample_file_well_formed).
Defined.

(** ** Coverage of the walk *)

Lemma grows_for_each {A} (l : list A) (body : A -> M unit) :
  (forall x, grows (body x)) -> grows (for_each l body).
Proof. intros Hb N0 R0. apply preserves_for_each. intros x _. apply Hb. Qed.

Lemma grows_nodes {A} (m : M A) s : grows m -> incl (nodes (st_graph s)) (nodes (st_graph (snd (m s)))).
Proof.
  intros Hm. exact (proj1 (Hm (nodes (st_graph s)) [] s (conj (incl_refl _) (incl_nil_l _)))).
Qed.

(** A loop that ran to its end ran its body on each item, and kept what that
    body inserted. *)
Lemma for_each_visit {A} (l : list A) (body : A -> M unit) x s :
  (forall y, grows (body y)) -> fst (for_each l body s) = inr tt -> In x l ->
  exists s1, incl (nodes (st_graph (snd (body x s1)))) (nodes (st_graph (snd (for_each l body s)))).
Proof.
  intros Hg. revert s. induction l as [|y l IH]; intros s Hok Hx; [destruct Hx|].
  simpl in Hok |- *. unfold bind in Hok |- *.
  destruct (body y s) as [[err|u] s1] eqn:E; [discriminate|].
  destruct Hx as [<-|Hx].
  - exists s. rewrite E. simpl. apply grows_nodes, grows_for_each, Hg.
  - exact (IH s1 Hok Hx).
Qed.

Lemma nodes_add_has py_hash n ns :
  exists m, In m (nodes_add py_hash n ns) /\ node_hash py_hash m = node_hash py_hash n.
Proof.
  unfold nodes_add, py_set_add. destruct (py_set_mem (node_hash py_hash) (node_eq py_hash) n ns) eqn:E.
  - unfold py_set_mem in E. apply existsb_exists in E as [m [Hm Hb]].
    apply andb_true_iff in Hb as [Hb _]. apply Z.eqb_eq in Hb. eauto.
  - exists n. split; [apply in_or_app; right; now left | reflexivity].
Qed.

Lemma numbered_identity uuid4 e f hierarchy k :
  ent_id e <> 0 -> no_stored_attribute "id" e ->
  primarykey (fst (create_pure_node_from_ifc_entity uuid4 e f hierarchy k)) =
  VStr (py_str_Z (ent_id e)).
Proof.
  intros Hid Hno. rewrite create_pure_node_unfold. unfold node_id.
  apply Z.eqb_neq in Hid. rewrite Hid. simpl.
  unfold getitem, literal_attributes. rewrite literal_fold_absent by exact Hno. reflexivity.
Qed.

(** X7: when [create_full_graph] runs to its end, every instance with a
    non-zero id and no stored attribute named ["id"] has in [graph.nodes] a
    node equal (for [Node.__eq__]) to one with primary key [str(id)]. *)
Theorem full_graph_covers_instances (py_hash : value -> Z) (tuple_hash : list Z -> Z)
    (uuid4 : nat -> string) f s k e :
  fst (create_full_graph py_hash tuple_hash uuid4 f s) = inr tt ->
  by_id f k = Some e -> k <> 0 -> no_stored_attribute "id" e ->
  exists n, In n (nodes (st_graph (snd (create_full_graph py_hash tuple_hash uuid4 f s)))) /\
            node_hash py_hash n = py_hash (VStr (py_str_Z k)).
Proof.
  intros Hok Hk Hk0 Hno. destruct (by_id_In f k e Hk) as [He Hid].
  assert (Hin : In k (entity_names f)) by (rewrite <- Hid; exact (in_map ent_id _ _ He)).
  unfold create_full_graph in *.
  assert (Hg : forall y, grows (match by_id f y with
                               | Some e => create_graph_from_ifc_entity_all py_hash tuple_hash uuid4 e f
                               | None => raise RuntimeError
                               end)).
  { intros y N0 R0. destruct (by_id f y) as [e'|].
    - exact (grows_extract py_hash tuple_hash uuid4 e' f N0 R0).
    - apply preserves_raise. }
  destruct (for_each_visit _ _ k s Hg Hok Hin) as [s1 Hincl].
  rewrite Hk in Hincl. rewrite extract_nodes in Hincl.
  destruct (nodes_add_has py_hash (fst (create_pure_node_from_ifc_entity uuid4 e f true (st_draws s1)))
              (nodes (st_graph s1))) as [m [Hm Hh]].
  exists m. split; [exact (Hincl m Hm)|].
  rewrite Hh. unfold node_hash. rewrite numbered_identity by (try rewrite Hid; assumption).
  now rewrite Hid.
Qed.

Lemma full_graph_covers_instances_witness :
  fst (create_full_graph sample_hash sample_tuple_hash sample_uuid4 sample_file empty_state) = inr tt /\
  by_id sample_file 5 = Some wall5 /\ 5 <> 0 /\ no_stored_attribute "id" wall5 /\
  exists n, In n (nodes (st_graph (snd (create_full_graph sample_hash sample_tuple_hash
                                          sample_uuid4 sample_file empty_state)))) /\
            node_hash sample_hash n = sample_hash (VStr (py_str_Z 5)).
Proof.
  assert (H1 : fst (create_full_graph sample_hash sample_tuple_hash sample_uuid4 sample_file
                      empty_state) = inr tt) by (vm_compute; reflexivity).
  assert (H2 : by_id sample_file 5 = Some wall5) by (vm_compute; reflexivity).
  assert (H3 : 5 <> 0) by lia.
  assert (H4 : no_stored_attribute "id" wall5).
  { intros a Ha. simpl in Ha. repeat destruct Ha as [Ha|Ha]; try injection Ha as Ha; try discriminate.
    destruct Ha. }
  split; [exact H1|]. split; [exact H2|]. split; [exact H3|]. split; [exact H4|].
  exact (full_graph_covers_instances sample_hash sample_tuple_hash sample_uuid4 sample_file
           empty_state 5 wall5 H1 H2 H3 H4).
Defined.

(** ** Emission of a built graph *)

Lemma execute_all qs :
  (forall q, In q qs -> exists st, q = inr st) ->
  exists out, execute qs = (out, None) /\ length out = length qs.
Proof.
  induction qs as [|q qs IH]; intros H; simpl; [eauto|].
  destruct (H q (or_introl eq_refl)) as [st ->].
  destruct IH as [out [E Hl]]; [intros q' Hq'; apply H; now right|].
  rewrite E. exists (st :: out). simpl. auto.
Qed.

Lemma write_keyed g :
  keyed_graph g ->
  exists out, write_graph_to_neo4j g = (out, None) /\
              length out = (length (nodes g) + length (relationships g))%nat.
Proof.
  intros [Hn Hr]. unfold write_graph_to_neo4j.
  destruct (execute_all (map node_query (nodes g) ++ map rel_query (relationships g)))
    as [out [E Hl]].
  - intros q Hq. apply in_app_or in Hq as [Hq|Hq]; apply in_map_iff in Hq as [x [<- Hx]].
    + rewrite Forall_forall in Hn. destruct (Hn x Hx) as [_ Hname].
      unfold node_query. destruct (dict_get "name" (props x)); [eauto | congruence].
    + rewrite Forall_forall in Hr. destruct (Hr x Hx) as [[Hi1 Hn1] [Hi2 Hn2]].
      unfold rel_query.
      destruct (dict_get "name" (props (start_node x))); [|congruence].
      destruct (dict_get "id" (props (start_node x))); [|congruence].
      destruct (dict_get "name" (props (end_node x))); [|congruence].
      destruct (dict_get "id" (props (end_node x))); [eauto | congruence].
  - exists out. split; [exact E|]. rewrite Hl, length_app, !length_map. reflexivity.
Qed.

(** X8: a graph whose nodes, and the endpoints of whose relationships, all
    have the keys ["id"] and ["name"] is written completely: one [CREATE] per
    node and one [MATCH ... CREATE] per relationship, with no error. *)
Theorem write_keyed_graph (g : graph) :
  keyed_graph g ->
  exists out, write_graph_to_neo4j g = (out, None) /\
              length out = (length (nodes g) + length (relationships g))%nat.
Proof. exact (write_keyed g). Qed.

Lemma write_keyed_graph_witness :
  let wall := mkNode [("id", VStr "5"); ("name", VStr "IfcWall")] ["IfcWall"]
                     (VStr "IfcWall") (VStr "5") in
  let place := mkNode [("id", VStr "7"); ("name", VStr "IfcLocalPlacement")]
                      ["IfcLocalPlacement"] (VStr "IfcLocalPlacement") (VStr "7") in
  let g := mkGraph [wall; place] [mkRel wall "ObjectPlacement" place] in
  keyed_graph g /\
  exists out, write_graph_to_neo4j g = (out, None) /\ length out = 3%nat.
Proof.
  intros wall place g.
  assert (H : keyed_graph g).
  { split; repeat constructor; simpl; discriminate. }
  split; [exact H|]. exact (write_keyed_graph g H).
Defined.

Lemma dict_get_In k d : In k (map fst d) -> dict_get k d <> None.
Proof.
  induction d as [|[k' v'] d IH]; simpl; [tauto|]. intros Hk.
  destruct (String.eqb k k') eqn:E; [discriminate|].
  apply IH. destruct Hk as [Hk|Hk]; [|exact Hk].
  subst k'. now rewrite String.eqb_refl in E.
Qed.

Lemma built_keyed uuid4 e f hierarchy k :
  keyed (fst (create_pure_node_from_ifc_entity uuid4 e f hierarchy k)).
Proof.
  rewrite create_pure_node_unfold. simpl. unfold literal_attributes.
  destruct (literal_fold_keys (ent_args e)
              [("id", fst (node_id uuid4 e k)); ("name", VStr (ent_type e))])
    as [_ [_ Hin]].
  split; apply dict_get_In, Hin; simpl; tauto.
Qed.

Lemma keyed_merge_node py_hash tuple_hash n :
  keyed n -> preserves keyed_graph (merge py_hash tuple_hash (PNode n)).
Proof.
  intros Hn s [HN HR]. simpl. split; [|exact HR].
  rewrite Forall_forall in HN |- *. intros x Hx.
  destruct (py_set_add_In _ _ _ _ _ Hx) as [H|H]; [now apply HN | now subst].
Qed.

Lemma keyed_link py_hash tuple_hash uuid4 f n name r :
  keyed n -> preserves keyed_graph (link py_hash tuple_hash uuid4 f n name r).
Proof.
  intros Hn s [HN HR]. unfold link, bind, build.
  destruct (create_pure_node_from_ifc_entity uuid4 r f true (st_draws s)) as [sub k] eqn:E.
  assert (Hsub : keyed sub).
  { pose proof (built_keyed uuid4 r f true (st_draws s)) as Hb. rewrite E in Hb. exact Hb. }
  simpl. split; [exact HN|].
  rewrite Forall_forall in HR |- *. intros x Hx.
  destruct (py_set_add_In _ _ _ _ _ Hx) as [H|H]; [now apply HR | subst x; simpl; tauto].
Qed.

Lemma keyed_extract py_hash tuple_hash uuid4 e f :
  preserves keyed_graph (create_graph_from_ifc_entity_all py_hash tuple_hash uuid4 e f).
Proof.
  assert (Hm : forall n, keyed n ->
            preserves keyed_graph
              (merge py_hash tuple_hash (PNode n) ;;
               for_each (ent_args e) (extract_arg py_hash tuple_hash uuid4 e f n) ;;
               for_each (ent_inverses e) (extract_inverse py_hash tuple_hash uuid4 e f n))).
  2:{ intros s Hs. rewrite extract_step. apply Hm; [apply built_keyed | exact Hs]. }
  intros n Hn.
  apply preserves_bind; [apply keyed_merge_node; exact Hn | intros _].
  apply preserves_bind; [|intros _]; apply preserves_for_each.
  - intros [name a] _. unfold extract_arg.
    preserves_tac ltac:(apply keyed_link; exact Hn).
  - intros [rel_name ids] _. unfold extract_inverse.
    preserves_tac ltac:(apply keyed_link; exact Hn).
Qed.

Lemma keyed_full_graph py_hash tuple_hash uuid4 f :
  preserves keyed_graph (create_full_graph py_hash tuple_hash uuid4 f).
Proof. unfold create_full_graph. preserves_tac ltac:(apply keyed_extract). Qed.

(** X9: the graph [create_full_graph] builds from an empty graph, whatever
    the file, is written completely by [write_graph_to_neo4j]: every node and
    relationship gets its statement and no [KeyError] arises. *)
Theorem full_graph_writes (py_hash : value -> Z) (tuple_hash : list Z -> Z)
    (uuid4 : nat -> string) f :
  let g := st_graph (snd (create_full_graph py_hash tuple_hash uuid4 f empty_state)) in
  exists out, write_graph_to_neo4j g = (out, None) /\
              length out = (length (nodes g) + length (relationships g))%nat.
Proof.
  intros g. apply write_keyed. subst g.
  apply keyed_full_graph. split; constructor.
Qed.

(** ** No two equal elements in the graph's sets *)

Lemma py_set_add_NoDup {A} (h : A -> Z) eq x s :
  (forall y, eq y x = Z.eqb (h y) (h x)) ->
  NoDup (map h s) -> NoDup (map h (py_set_add h eq x s)).
Proof.
  intros Heq Hnd. unfold py_set_add. destruct (py_set_mem h eq x s) eqn:E; [exact Hnd|].
  rewrite map_app. simpl. apply NoDup_app; [exact Hnd | repeat constructor; simpl; tauto|].
  intros z Hz [Hx|[]]. subst z. apply in_map_iff in Hz as [y [Hy Hin]].
  assert (Hm : py_set_mem h eq x s = true).
  { unfold py_set_mem. apply existsb_exists. exists y. split; [exact Hin|].
    rewrite Heq, Hy, Z.eqb_refl. reflexivity. }
  congruence.
Qed.

Lemma distinct_merge py_hash tuple_hash o :
  preserves (fun g => NoDup (map (node_hash py_hash) (nodes g)) /\
                      NoDup (map (rel_hash py_hash tuple_hash) (relationships g)))
            (merge py_hash tuple_hash o).
Proof.
  intros s [HN HR]. destruct o; simpl; split; try assumption;
    apply py_set_add_NoDup; try assumption; intros y; reflexivity.
Qed.

Lemma distinct_extract py_hash tuple_hash uuid4 e f :
  preserves (fun g => NoDup (map (node_hash py_hash) (nodes g)) /\
                      NoDup (map (rel_hash py_hash tuple_hash) (relationships g)))
            (create_graph_from_ifc_entity_all py_hash tuple_hash uuid4 e f).
Proof.
  unfold create_graph_from_ifc_entity_all.
  apply preserves_bind; [apply preserves_build | intros n].
  apply preserves_bind; [apply distinct_merge | intros _].
  apply preserves_bind; [|intros _]; apply preserves_for_each.
  - intros [name a] _. unfold extract_arg. preserves_tac ltac:(apply distinct_merge).
  - intros [rel_name ids] _. unfold extract_inverse. preserves_tac ltac:(apply distinct_merge).
Qed.

(** X11: from an empty graph, [create_full_graph] leaves no two nodes with
    the same [__hash__] (so no two equal nodes) and no two equal
    relationships, whatever the file and even when it raises. *)
Theorem full_graph_sets_distinct (py_hash : value -> Z) (tuple_hash : list Z -> Z)
    (uuid4 : nat -> string) f :
  let g := st_graph (snd (create_full_graph py_hash tuple_hash uuid4 f empty_state)) in
  NoDup (map (node_hash py_hash) (nodes g)) /\
  NoDup (map (rel_hash py_hash tuple_hash) (relationships g)).
Proof.
  intros g. subst g. unfold create_full_graph.
  apply preserves_for_each; [|split; constructor].
  intros k _. destruct (by_id f k); [apply distinct_extract | apply preserves_raise].
Qed.
